(** * Women Safety System: the monitoring engine of [app.py]

    A shallow embedding of the engine in [src/app.py]: the process-wide
    [SystemState], the simulated GPS walk, the voice-detection draw, the
    Telegram fan-out, one iteration of [monitoring_loop], the Flask routes
    and the Socket.IO handlers.

    Conventions of the embedding.
    - In the engine a sample of the walk is the value that is stored and
      sent on; there Python [float]s are read as rationals ([Q]) and
      [math.cos], [math.sin] and [math.radians] are parameters.  The walk
      itself, [get_simulated_gps], is also embedded on binary64 floats,
      where its bounds are decided.
    - The module-level [random] generator and the clock are read through
      explicit draws handed to each operation.
    - Every call that leaves the process (a Socket.IO emit, a Firebase
      write, a Telegram alert, a sleep, a thread start) is appended to a
      chronological list of [Effect]s. *)

From Stdlib Require Import PrimFloat.
From Stdlib Require FloatOps SpecFloat.
From Stdlib Require Import List ZArith QArith Qround Qabs String Bool Lia Arith.
From Stdlib Require Import Ascii Lqa.
Import ListNotations.
Local Open Scope Z_scope.

(** ** Data model *)

(** The two values of [current_status] and of an event's ['status']. *)
Inductive Status : Type :=
| safe
| distress.

(** [datetime.utcnow().isoformat() + 'Z'] : an already formatted reading
    of the clock. *)
Definition Timestamp : Type := string.

(** The dict returned by [get_simulated_gps]. *)
Record Location : Type := mkLocation {
  latitude : Q;
  longitude : Q;
  timestamp : Timestamp;
  accuracy : Q;
  source : string
}.

(** An entry of [state.events].  A periodic safe entry has no ['keyword']
    key. *)
Record Event : Type := mkEvent {
  ev_latitude : Q;
  ev_longitude : Q;
  ev_timestamp : Timestamp;
  ev_status : Status;
  ev_keyword : option string;
  ev_accuracy : Q
}.

(** [class Config]. *)
Module Config.
Definition DISTRESS_KEYWORDS : list string :=
  ["help"; "save me"; "emergency"; "danger"; "police"]%string.
Definition GPS_UPDATE_INTERVAL : Q := 2%Q.
Definition SIMULATION_GPS_CENTER : Q * Q := ((286139 # 10000)%Q, (772090 # 10000)%Q).
Definition SIMULATION_GPS_RADIUS : Q := (1 # 100)%Q.
Definition SIMULATION_VOICE_TRIGGER_PROB : Q := (15 # 100)%Q.
End Config.

(** [class SystemState]. *)
Record SystemState : Type := mkState {
  running : bool;
  current_location : option Location;
  current_status : Status;
  events : list Event;
  connected_clients : Z;
  firebase_connected : bool;
  telegram_enabled : bool;
  sim_lat : Q;
  sim_lon : Q;
  sim_angle : Q
}.

(** The two handler objects built at import time, and the chat ids read
    from the environment. *)
Record Handlers : Type := mkHandlers {
  firebase_handler_connected : bool;
  telegram_handler_enabled : bool;
  TELEGRAM_CHAT_IDS : list string
}.

(** [state = SystemState()], followed by the two assignments that copy
    the handlers' flags into it. *)
Definition initial_state (h : Handlers) : SystemState :=
  {| running := false;
     current_location := None;
     current_status := safe;
     events := [];
     connected_clients := 0;
     firebase_connected := firebase_handler_connected h;
     telegram_enabled := telegram_handler_enabled h;
     sim_lat := fst Config.SIMULATION_GPS_CENTER;
     sim_lon := snd Config.SIMULATION_GPS_CENTER;
     sim_angle := 0%Q |}.

Definition set_running (b : bool) (s : SystemState) : SystemState :=
  mkState b (current_location s) (current_status s) (events s)
          (connected_clients s) (firebase_connected s) (telegram_enabled s)
          (sim_lat s) (sim_lon s) (sim_angle s).

Definition set_current_location (l : option Location) (s : SystemState) : SystemState :=
  mkState (running s) l (current_status s) (events s)
          (connected_clients s) (firebase_connected s) (telegram_enabled s)
          (sim_lat s) (sim_lon s) (sim_angle s).

Definition set_current_status (c : Status) (s : SystemState) : SystemState :=
  mkState (running s) (current_location s) c (events s)
          (connected_clients s) (firebase_connected s) (telegram_enabled s)
          (sim_lat s) (sim_lon s) (sim_angle s).

Definition set_events (es : list Event) (s : SystemState) : SystemState :=
  mkState (running s) (current_location s) (current_status s) es
          (connected_clients s) (firebase_connected s) (telegram_enabled s)
          (sim_lat s) (sim_lon s) (sim_angle s).

Definition set_connected_clients (n : Z) (s : SystemState) : SystemState :=
  mkState (running s) (current_location s) (current_status s) (events s)
          n (firebase_connected s) (telegram_enabled s)
          (sim_lat s) (sim_lon s) (sim_angle s).

Definition set_sim (lat lon angle : Q) (s : SystemState) : SystemState :=
  mkState (running s) (current_location s) (current_status s) (events s)
          (connected_clients s) (firebase_connected s) (telegram_enabled s)
          lat lon angle.

(** ** Effects *)

(** What is sent on the Socket.IO channel. *)
Inductive Payload : Type :=
| PLocation (l : Location)
| PEvent (e : Event)
| PStatus (c : Status) (now : Timestamp).

(** Session id of a Socket.IO client. *)
Definition Sid : Type := nat.

Inductive Effect : Type :=
| Broadcast (topic : string) (p : Payload)      (* socketio.emit(topic, p) *)
| EmitTo (sid : Sid) (topic : string) (p : Payload) (* emit(topic, p) in a handler *)
| VoiceCheck (detected : bool)                  (* simulate_voice_detection() *)
| StoreEvent (e : Event)                        (* firebase_handler.store_event(e) *)
| SendAlert (l : Location) (keyword : option string) (* asyncio.run(telegram_handler.send_alert(l, keyword)) *)
| Sleep (seconds : Q)                           (* time.sleep(seconds) *)
| StartThread.                                  (* threading.Thread(target=monitoring_loop).start() *)

(** ** A monad for the engine: the global [state] and the effect log *)

Definition M (A : Type) : Type := SystemState -> A * SystemState * list Effect.

Definition ret {A} (a : A) : M A := fun s => (a, s, []).

Definition bind {A B} (m : M A) (k : A -> M B) : M B :=
  fun s =>
    let '(a, s1, t1) := m s in
    let '(b, s2, t2) := k a s1 in
    (b, s2, t1 ++ t2).

Definition gets {A} (f : SystemState -> A) : M A := fun s => (f s, s, []).
Definition modify (f : SystemState -> SystemState) : M unit := fun s => (tt, f s, []).
Definition tell (e : Effect) : M unit := fun s => (tt, s, [e]).

Declare Scope engine_scope.
Delimit Scope engine_scope with engine.
Notation "x <- m ;; k" := (bind m (fun x => k))
  (at level 61, m at next level, right associativity) : engine_scope.
Notation "m ;; k" := (bind m (fun _ => k))
  (at level 61, right associativity) : engine_scope.
Local Open Scope engine_scope.

Definition result_of {A} (r : A * SystemState * list Effect) : A := fst (fst r).
Definition state_of {A} (r : A * SystemState * list Effect) : SystemState := snd (fst r).
Definition trace_of {A} (r : A * SystemState * list Effect) : list Effect := snd r.

(** [for i in range(n): body(i)]. *)
Fixpoint for_range (n : nat) (i : nat) (body : nat -> M unit) : M unit :=
  match n with
  | O => ret tt
  | S n' => body i ;; for_range n' (S i) body
  end.

(** ** GPS simulation *)

(** The C library behind [math.cos], [math.sin] and [math.radians]. *)
Record Libm : Type := mkLibm {
  math_cos : Q -> Q;
  math_sin : Q -> Q;
  math_radians : Q -> Q
}.

(** The three [random.uniform] results and the clock reading consumed by
    one call of [get_simulated_gps]. *)
Record GpsDraw : Type := mkGpsDraw {
  u_angle : Q;       (* random.uniform(-30, 30) *)
  u_distance : Q;    (* random.uniform(0, SIMULATION_GPS_RADIUS * 0.1) *)
  u_accuracy : Q;    (* random.uniform(5, 15) *)
  gps_now : Timestamp
}.

(** [x > y] on floats. *)
Definition py_gt (x y : Q) : bool := negb (Qle_bool x y).

(** [x < y] on floats. *)
Definition py_lt (x y : Q) : bool := negb (Qle_bool y x).

(** [round(x, 6)]: nearest multiple of 10^-6, ties to the even one. *)
Definition py_round6 (x : Q) : Q :=
  let y := (x * 1000000)%Q in
  let f := Qfloor y in
  match ((y - inject_Z f) ?= (1 # 2))%Q with
  | Lt => (f # 1000000)%Q
  | Gt => ((f + 1) # 1000000)%Q
  | Eq => if Z.even f then (f # 1000000)%Q else ((f + 1) # 1000000)%Q
  end.

(** Lines 95-96 and 98-99: pull a coordinate back to the edge of the box. *)
Definition keep_within (center max_dist x : Q) : Q :=
  if py_gt (Qabs (x - center)) max_dist
  then (center + (if py_gt x center then max_dist else - max_dist))%Q
  else x.

(** The same two lines on binary64 floats, as Python runs them. *)
Definition keep_within_binary64 (center max_dist x : PrimFloat.float) : PrimFloat.float :=
  if PrimFloat.ltb max_dist (PrimFloat.abs (PrimFloat.sub x center))
  then PrimFloat.add center
         (if PrimFloat.ltb center x then max_dist else PrimFloat.opp max_dist)
  else x.

(** The sampler as the engine calls it, with coordinates read as
    rationals.  Its arithmetic on floats is [get_simulated_gps_binary64]
    below. *)
Definition get_simulated_gps (lm : Libm) (d : GpsDraw) : M Location :=
  fun s =>
    let angle := (sim_angle s + u_angle d)%Q in
    let distance := u_distance d in
    let lat := (sim_lat s + distance * math_cos lm (math_radians lm angle))%Q in
    let lon := (sim_lon s + distance * math_sin lm (math_radians lm angle))%Q in
    let '(center_lat, center_lon) := Config.SIMULATION_GPS_CENTER in
    let max_dist := Config.SIMULATION_GPS_RADIUS in
    let lat := keep_within center_lat max_dist lat in
    let lon := keep_within center_lon max_dist lon in
    ({| latitude := py_round6 lat;
        longitude := py_round6 lon;
        timestamp := gps_now d;
        accuracy := u_accuracy d;
        source := "simulated" |},
     set_sim lat lon angle s,
     []).

(** ** Voice simulation *)

Record VoiceDraw : Type := mkVoiceDraw {
  u_random : Q;        (* random.random() *)
  choice_index : nat   (* the index picked by random.choice *)
}.

Definition simulate_voice_detection (v : VoiceDraw) : M (bool * option string * Q) :=
  if py_lt (u_random v) Config.SIMULATION_VOICE_TRIGGER_PROB
  then
    let keyword :=
      nth_error Config.DISTRESS_KEYWORDS
                (choice_index v mod List.length Config.DISTRESS_KEYWORDS)%nat in
    tell (VoiceCheck true) ;; ret (true, keyword, (85 # 100)%Q)
  else
    tell (VoiceCheck false) ;; ret (false, None, 0%Q).

(** ** Telegram handler *)

(** One [bot.send_message] call: the chat id and whether it returned
    ([true]) or raised ([false]). *)
Record Delivery : Type := mkDelivery {
  chat_id : string;
  delivered : bool
}.

Definition nonempty (sid : string) : bool :=
  match sid with
  | EmptyString => false
  | String _ _ => true
  end.

(** The [for chat_id in Config.TELEGRAM_CHAT_IDS] loop of [send_alert];
    [bot_send] tells whether [send_message] to a chat returns. *)
Fixpoint send_alert_loop (bot_send : string -> bool) (ids : list string)
         (success : bool) : bool * list Delivery :=
  match ids with
  | [] => (success, [])
  | id :: rest =>
      if nonempty id then
        let ok := bot_send id in
        let '(r, ds) := send_alert_loop bot_send rest (if ok then true else success) in
        (r, mkDelivery id ok :: ds)
      else send_alert_loop bot_send rest success
  end.

(** [TelegramHandler.send_alert]: the returned flag and the deliveries
    attempted, in order. *)
Definition send_alert (h : Handlers) (bot_send : string -> bool)
           (location : Location) (keyword : option string) : bool * list Delivery :=
  if negb (telegram_handler_enabled h) then (false, [])
  else send_alert_loop bot_send (TELEGRAM_CHAT_IDS h) false.

(** ** One iteration of [monitoring_loop] *)

Record TickInput : Type := mkTickInput {
  tick_gps : GpsDraw;
  tick_voice : VoiceDraw;
  tick_window : nat -> GpsDraw;   (* draws of the 15 extra samples *)
  tick_now : Timestamp            (* clock at the status update *)
}.

Definition CAPACITY : nat := 50.

(** [state.events.insert(0, event)]. *)
Definition events_insert (event : Event) : M unit :=
  modify (fun s => set_events (event :: events s) s).

(** [if len(state.events) > 50: state.events.pop()]. *)
Definition events_trim : M unit :=
  modify (fun s =>
    if (CAPACITY <? List.length (events s))%nat
    then set_events (removelast (events s)) s
    else s).

(** Lines 248-251. *)
Definition enhanced_monitoring (lm : Libm) (window : nat -> GpsDraw) : M unit :=
  for_range 15 0 (fun i =>
    location <- get_simulated_gps lm (window i) ;;
    tell (Broadcast "location_update" (PLocation location)) ;;
    tell (Sleep 2%Q)).

Definition distress_event (location : Location) (keyword : option string) : Event :=
  {| ev_latitude := latitude location;
     ev_longitude := longitude location;
     ev_timestamp := timestamp location;
     ev_status := distress;
     ev_keyword := keyword;
     ev_accuracy := accuracy location |}.

Definition safe_event (location : Location) : Event :=
  {| ev_latitude := latitude location;
     ev_longitude := longitude location;
     ev_timestamp := timestamp location;
     ev_status := safe;
     ev_keyword := None;
     ev_accuracy := accuracy location |}.

(** The body of [while state.running].  Nothing called here raises in
    this model, so the [except] branch of the loop is never taken. *)
Definition monitoring_iteration (lm : Libm) (h : Handlers) (inp : TickInput) : M unit :=
  location <- get_simulated_gps lm (tick_gps inp) ;;
  modify (set_current_location (Some location)) ;;
  tell (Broadcast "location_update" (PLocation location)) ;;
  det <- simulate_voice_detection (tick_voice inp) ;;
  let '(detected, keyword, confidence) := det in
  (if detected : bool then
     modify (set_current_status distress) ;;
     let event := distress_event location keyword in
     events_insert event ;;
     events_trim ;;
     tell (StoreEvent event) ;;
     (if telegram_handler_enabled h
      then tell (SendAlert location keyword)
      else ret tt) ;;
     tell (Broadcast "emergency_alert" (PEvent event)) ;;
     enhanced_monitoring lm (tick_window inp) ;;
     modify (set_current_status safe)
   else
     n <- gets (fun s => List.length (events s)) ;;
     if (n mod 10 =? 0)%nat then
       let event := safe_event location in
       events_insert event ;;
       tell (StoreEvent event)
     else ret tt) ;;
  c <- gets current_status ;;
  tell (Broadcast "status_update" (PStatus c (tick_now inp))) ;;
  tell (Sleep Config.GPS_UPDATE_INTERVAL).

(** ** Flask routes *)

(** [jsonify({'success': ..., 'message': ...})]. *)
Record Reply : Type := mkReply {
  success : bool;
  message : string
}.

(** [lst[:stop]] for an integer [stop]. *)
Definition py_slice_to {A} (lst : list A) (stop : Z) : list A :=
  let len := Z.of_nat (List.length lst) in
  let stop' := if stop <? 0 then Z.max (len + stop) 0 else Z.min stop len in
  firstn (Z.to_nat stop') lst.

(** [get_events]; [limit] is the integer carried by the query string, if
    any ([request.args.get('limit', 20, type=int)]). *)
Definition get_events (limit : option Z) (s : SystemState) : list Event :=
  let limit := match limit with Some n => n | None => 20 end in
  py_slice_to (events s) limit.

Definition start_system : M Reply :=
  r <- gets running ;;
  if negb r then
    modify (set_running true) ;;
    tell StartThread ;;
    ret (mkReply true "System started")
  else ret (mkReply false "Already running").

Definition stop_system : M Reply :=
  modify (set_running false) ;;
  ret (mkReply true "System stopped").

Definition manual_event (location : Location) (now : Timestamp) : Event :=
  {| ev_latitude := latitude location;
     ev_longitude := longitude location;
     ev_timestamp := now;
     ev_status := distress;
     ev_keyword := Some "MANUAL_TRIGGER"%string;
     ev_accuracy := 10%Q |}.

Definition trigger_emergency (now : Timestamp) : M Reply :=
  loc <- gets current_location ;;
  match loc with
  | Some location =>
      let event := manual_event location now in
      events_insert event ;;
      tell (StoreEvent event) ;;
      tell (Broadcast "emergency_alert" (PEvent event)) ;;
      ret (mkReply true "Emergency triggered")
  | None => ret (mkReply false "No location available")
  end.

(** ** Socket.IO handlers *)

Definition handle_connect (sid : Sid) (now : Timestamp) : M unit :=
  modify (fun s => set_connected_clients (connected_clients s + 1) s) ;;
  loc <- gets current_location ;;
  match loc with
  | Some location => tell (EmitTo sid "location_update" (PLocation location))
  | None => ret tt
  end ;;
  c <- gets current_status ;;
  tell (EmitTo sid "status_update" (PStatus c now)).

Definition handle_disconnect (sid : Sid) : M unit :=
  modify (fun s => set_connected_clients (connected_clients s - 1) s).

Definition handle_location_request (sid : Sid) : M unit :=
  loc <- gets current_location ;;
  match loc with
  | Some location => tell (EmitTo sid "location_update" (PLocation location))
  | None => ret tt
  end.

(** ** Runs of the whole process *)

(** What can happen to the process: a request, a Socket.IO event, or one
    iteration of the monitoring thread. *)
Inductive Action : Type :=
| Start
| Stop
| TriggerEmergency (now : Timestamp)
| Connect (sid : Sid) (now : Timestamp)
| Disconnect (sid : Sid)
| RequestLocation (sid : Sid)
| Tick (inp : TickInput).

Definition discard {A} (m : M A) : M unit := m ;; ret tt.

(** The monitoring thread iterates only [while state.running]. *)
Definition step (lm : Libm) (h : Handlers) (a : Action) : M unit :=
  match a with
  | Start => discard start_system
  | Stop => discard stop_system
  | TriggerEmergency now => discard (trigger_emergency now)
  | Connect sid now => handle_connect sid now
  | Disconnect sid => handle_disconnect sid
  | RequestLocation sid => handle_location_request sid
  | Tick inp =>
      r <- gets running ;;
      if r : bool then monitoring_iteration lm h inp else ret tt
  end.

Fixpoint run (lm : Libm) (h : Handlers) (acts : list Action) : M unit :=
  match acts with
  | [] => ret tt
  | a :: rest => step lm h a ;; run lm h rest
  end.

(** ** Observations on effect logs *)

Definition is_alert (e : Effect) : bool :=
  match e with SendAlert _ _ => true | _ => false end.

Definition is_voice_check (e : Effect) : bool :=
  match e with VoiceCheck _ => true | _ => false end.

Definition is_store (e : Effect) : bool :=
  match e with StoreEvent _ => true | _ => false end.

Definition is_broadcast (topic : string) (e : Effect) : bool :=
  match e with Broadcast t _ => String.eqb t topic | _ => false end.

Definition is_emit_to (sid : Sid) (topic : string) (e : Effect) : bool :=
  match e with EmitTo i t _ => Nat.eqb i sid && String.eqb t topic | _ => false end.

Definition count (p : Effect -> bool) (t : list Effect) : nat :=
  List.length (filter p t).

(** Everything of the state except the simulated walk. *)
Definition core (s : SystemState) :=
  (running s, current_location s, current_status s, events s,
   connected_clients s, firebase_connected s, telegram_enabled s).

(** The effects of the enhanced-monitoring loop, given its samples. *)
Definition window_effects (locs : list Location) : list Effect :=
  flat_map (fun l => [Broadcast "location_update" (PLocation l); Sleep 2%Q]) locs.

(** What [events_trim] does to the list. *)
Definition trim (es : list Event) : list Event :=
  if (CAPACITY <? List.length es)%nat then removelast es else es.

(** The test and the pick of [simulate_voice_detection]. *)
Definition detected (inp : TickInput) : bool :=
  py_lt (u_random (tick_voice inp)) Config.SIMULATION_VOICE_TRIGGER_PROB.

Definition keyword_of (inp : TickInput) : option string :=
  nth_error Config.DISTRESS_KEYWORDS
            (choice_index (tick_voice inp) mod List.length Config.DISTRESS_KEYWORDS)%nat.

(** The messages [handle_connect] sends to the joining client. *)
Definition replay (sid : Sid) (now : Timestamp) (s : SystemState) : list Effect :=
  match current_location s with
  | Some location => [EmitTo sid "location_update" (PLocation location)]
  | None => []
  end ++ [EmitTo sid "status_update" (PStatus (current_status s) now)].

(** Whether some iteration of the monitoring loop ran, given the value of
    [state.running] before the actions. *)
Fixpoint ever_sampled (acts : list Action) (is_running : bool) : bool :=
  match acts with
  | [] => false
  | Start :: rest => ever_sampled rest true
  | Stop :: rest => ever_sampled rest false
  | Tick _ :: rest => is_running || ever_sampled rest is_running
  | _ :: rest => ever_sampled rest is_running
  end.

(** Joins minus leaves among the actions. *)
Fixpoint net_joins (acts : list Action) : Z :=
  match acts with
  | [] => 0
  | Connect _ _ :: rest => 1 + net_joins rest
  | Disconnect _ :: rest => net_joins rest - 1
  | _ :: rest => net_joins rest
  end.

(** No prefix of the actions has more leaves than joins. *)
Fixpoint leaves_follow_joins (acts : list Action) (present : Z) : bool :=
  match acts with
  | [] => true
  | Connect _ _ :: rest => leaves_follow_joins rest (present + 1)
  | Disconnect _ :: rest => (1 <=? present) && leaves_follow_joins rest (present - 1)
  | _ :: rest => leaves_follow_joins rest present
  end.

(** ** Concrete inputs used by the examples *)

Module Sample.
#[local] Set Warnings "-inexact-float".
Definition center_lat_binary64 : PrimFloat.float := 28.6139%float.
Definition radius_binary64 : PrimFloat.float := 0.01%float.
Definition south_of_box_binary64 : PrimFloat.float := 28.6035%float.
Definition lower_edge_binary64 : PrimFloat.float := 28.6039%float.
#[local] Set Warnings "+inexact-float".
Definition libm : Libm := mkLibm (fun _ => 1%Q) (fun _ => 0%Q) (fun x => x).
Definition telegram_on : Handlers := mkHandlers false true ["111"; "222"; "333"]%string.
Definition telegram_off : Handlers := mkHandlers false false [""%string].
Definition still : GpsDraw := mkGpsDraw 0%Q 0%Q 10%Q "2024-01-01T00:00:00Z"%string.
Definition later : Timestamp := "2024-01-01T00:01:00Z"%string.
Definition quiet : TickInput :=
  mkTickInput still (mkVoiceDraw (1 # 2)%Q 0) (fun _ => still) "2024-01-01T00:00:02Z"%string.
Definition loud : TickInput :=
  mkTickInput still (mkVoiceDraw (1 # 10)%Q 3) (fun _ => still) "2024-01-01T00:00:32Z"%string.
Definition here : Location :=
  mkLocation (286139 # 10000)%Q (772090 # 10000)%Q "2024-01-01T00:00:00Z"%string 10%Q "simulated"%string.
Definition located (h : Handlers) : SystemState :=
  set_current_location (Some here) (set_running true (initial_state h)).
Definition e (k : string) : Event := manual_event here k.
Definition three_events (h : Handlers) : SystemState :=
  set_events [e "c"; e "b"; e "a"]%string (located h).
(** Ten log entries per round: a quiet tick that records a safe entry,
    then nine detections. *)
Definition round : list Action := Tick quiet :: repeat (Tick loud) 9.
Definition fill_log : list Action := Start :: List.concat (repeat round 5).
Definition joins_and_leaves : list Action :=
  [Connect 1%nat later; Connect 2%nat later; Disconnect 1%nat; Disconnect 2%nat].
Definition one_fails (sid : string) : bool := negb (String.eqb sid "222"%string).
Definition none_fails (sid : string) : bool := true.
End Sample.

(** ** The spec's reading of the fan-out, for comparison *)

Record DeliveryReport : Type := mkReport {
  attempted : nat;
  succeeded : nat
}.

(** Follows the words of the specification (section 4.4), not the source:
    one attempt per configured sink, and a report counting attempts and
    successes; nothing is attempted when the channel is disabled. *)
Definition notify_report (h : Handlers) (bot_send : string -> bool) : DeliveryReport :=
  if telegram_handler_enabled h then
    let sinks := filter nonempty (TELEGRAM_CHAT_IDS h) in
    {| attempted := List.length sinks;
       succeeded := List.length (filter bot_send sinks) |}
  else {| attempted := 0; succeeded := 0 |}.

(** ** Firebase handler *)

(** The two database calls of [store_event]. *)
Inductive DbWrite : Type :=
| PushEvent (event_data : Event)
    (* db_ref.child('women_safety/events').push(event_data) *)
| SetStatus (lat lon : Q) (status : Status) (last_update : Timestamp).
    (* db_ref.child('women_safety/status').set({...}) *)

(** [FirebaseHandler.store_event]: the returned flag and the database
    calls made, in order; [db_returns] tells whether a call returns
    ([true]) or raises ([false]). *)
Definition store_event (h : Handlers) (db_returns : DbWrite -> bool)
           (event_data : Event) : bool * list DbWrite :=
  if negb (firebase_handler_connected h) then (false, [])
  else
    let push := PushEvent event_data in
    if db_returns push then
      let set := SetStatus (ev_latitude event_data) (ev_longitude event_data)
                           (ev_status event_data) (ev_timestamp event_data) in
      if db_returns set then (true, [push; set]) else (false, [push; set])
    else (false, [push]).

(** ** Configuration read from the environment *)

(** [value.split(",")]. *)
Fixpoint split_commas (value : string) : list string :=
  match value with
  | EmptyString => [EmptyString]
  | String c rest =>
      if Ascii.eqb c ","%char then EmptyString :: split_commas rest
      else match split_commas rest with
           | piece :: more => String c piece :: more
           | [] => [String c EmptyString]
           end
  end.

(** [os.getenv(name, "")]. *)
Definition getenv_or_empty (value : option string) : string :=
  match value with
  | Some v => v
  | None => EmptyString
  end.

(** [TelegramHandler.__init__]: [available] is [TELEGRAM_AVAILABLE],
    [bot_constructs] tells whether [Bot(token=...)] returns. *)
Definition telegram_handler_init (available : bool) (token : string)
           (bot_constructs : bool) : bool :=
  if available && nonempty token then bot_constructs else false.

(** The handlers a process gets for the values of [TELEGRAM_BOT_TOKEN]
    and [TELEGRAM_CHAT_IDS]; [firebase] is the outcome of
    [FirebaseHandler.__init__]. *)
Definition handlers_from_env (firebase available bot_constructs : bool)
           (token chat_ids : option string) : Handlers :=
  {| firebase_handler_connected := firebase;
     telegram_handler_enabled :=
       telegram_handler_init available (getenv_or_empty token) bot_constructs;
     TELEGRAM_CHAT_IDS := split_commas (getenv_or_empty chat_ids) |}.

(** ** The status route *)

(** The object [get_status] returns. *)
Record StatusReport : Type := mkStatusReport {
  rep_running : bool;
  rep_status : Status;
  rep_location : option Location;
  rep_connected_clients : Z;
  rep_firebase_connected : bool;
  rep_telegram_enabled : bool;
  rep_total_events : nat
}.

Definition get_status (s : SystemState) : StatusReport :=
  {| rep_running := running s;
     rep_status := current_status s;
     rep_location := current_location s;
     rep_connected_clients := connected_clients s;
     rep_firebase_connected := firebase_connected s;
     rep_telegram_enabled := telegram_enabled s;
     rep_total_events := List.length (events s) |}.

(** ** More observations on runs *)

(** The events handed to [store_event], oldest first. *)
Fixpoint stored_events (t : list Effect) : list Event :=
  match t with
  | [] => []
  | StoreEvent e :: rest => e :: stored_events rest
  | _ :: rest => stored_events rest
  end.

Definition is_start_thread (e : Effect) : bool :=
  match e with StartThread => true | _ => false end.

Definition is_stop (a : Action) : bool :=
  match a with Stop => true | _ => false end.

Definition is_manual_trigger (a : Action) : bool :=
  match a with TriggerEmergency _ => true | _ => false end.

Definition is_tick (a : Action) : bool :=
  match a with Tick _ => true | _ => false end.

(** A broadcast status update that says anything but safe. *)
Definition broadcasts_distress (e : Effect) : bool :=
  match e with
  | Broadcast _ (PStatus distress _) => true
  | _ => false
  end.

(** The keywords an entry of the log can carry. *)
Definition event_well_formed (e : Event) : bool :=
  match ev_status e, ev_keyword e with
  | safe, None => true
  | distress, Some kw =>
      existsb (String.eqb kw) Config.DISTRESS_KEYWORDS
      || String.eqb kw "MANUAL_TRIGGER"
  | _, _ => false
  end.

(** The number of commas in a string. *)
Fixpoint commas (value : string) : nat :=
  match value with
  | EmptyString => 0
  | String c rest => (if Ascii.eqb c ","%char then 1 else 0) + commas rest
  end.

(** The value of [state.running] after the actions, given its value
    before them. *)
Fixpoint running_after (acts : list Action) (is_running : bool) : bool :=
  match acts with
  | [] => is_running
  | Start :: rest => running_after rest true
  | Stop :: rest => running_after rest false
  | _ :: rest => running_after rest is_running
  end.

(** The database calls made for the events a trace hands to
    [store_event], in order. *)
Fixpoint database_calls (h : Handlers) (db_returns : DbWrite -> bool)
         (t : list Effect) : list DbWrite :=
  match t with
  | [] => []
  | StoreEvent e :: rest =>
      snd (store_event h db_returns e) ++ database_calls h db_returns rest
  | _ :: rest => database_calls h db_returns rest
  end.

(** The events pushed by a list of database calls. *)
Fixpoint pushed_events (calls : list DbWrite) : list Event :=
  match calls with
  | [] => []
  | PushEvent e :: rest => e :: pushed_events rest
  | SetStatus _ _ _ _ :: rest => pushed_events rest
  end.

Definition is_set_status (w : DbWrite) : bool :=
  match w with SetStatus _ _ _ _ => true | PushEvent _ => false end.

(** Concrete inputs for the examples below. *)
Module Example.
Definition engine_only : list Action :=
  Sample.fill_log ++ [Tick Sample.quiet; Tick Sample.loud; Tick Sample.quiet].
Definition db_push_only (w : DbWrite) : bool :=
  match w with PushEvent _ => true | SetStatus _ _ _ _ => false end.
Definition connected : Handlers := mkHandlers true true ["111"%string].
End Example.

(** ** The simulated walk on binary64 floats *)

(** [get_simulated_gps] computes on Python floats.  Of a sample the engine
    above needs only that it is the value stored and sent on; for the
    walk itself the function is embedded here on binary64, operation for
    operation.  [math.cos] and [math.sin] are parameters;
    [math.radians(x)] is [x * (pi / 180)] and [random.uniform(a, b)] is
    [a + (b - a) * random()], as CPython defines them. *)
Record Libm64 : Type := mkLibm64 {
  cos64 : PrimFloat.float -> PrimFloat.float;
  sin64 : PrimFloat.float -> PrimFloat.float
}.

#[local] Set Warnings "-inexact-float".
Definition math_pi : PrimFloat.float := 3.141592653589793%float.
Definition SIMULATION_GPS_CENTER_binary64 : PrimFloat.float * PrimFloat.float :=
  (28.6139%float, 77.2090%float).
Definition SIMULATION_GPS_RADIUS_binary64 : PrimFloat.float := 0.01%float.
Definition one_tenth : PrimFloat.float := 0.1%float.
#[local] Set Warnings "+inexact-float".

Definition math_radians64 (x : PrimFloat.float) : PrimFloat.float :=
  (x * (math_pi / 180))%float.

(** [u] is the value of [random.random()]: a multiple of 2^-53 in [0, 1). *)
Definition random_uniform (a b u : PrimFloat.float) : PrimFloat.float :=
  (a + (b - a) * u)%float.

(** The absolute value of a finite float, as the rational it denotes. *)
Definition exact_magnitude (x : PrimFloat.float) : Q :=
  match FloatOps.Prim2SF x with
  | SpecFloat.S754_finite _ m e =>
      match e with
      | Z0 => inject_Z (Zpos m)
      | Zpos p => inject_Z (Zpos m * 2 ^ Zpos p)
      | Zneg p => Qmake (Zpos m) (2 ^ p)
      end
  | _ => 0%Q
  end.

(** The rational a finite float denotes. *)
Definition exact_value (x : PrimFloat.float) : Q :=
  if PrimFloat.ltb x 0 then (- exact_magnitude x)%Q else exact_magnitude x.

(** The nearest integer, ties to the even one. *)
Definition nearest_even (y : Q) : Z :=
  let f := Qfloor y in
  match ((y - inject_Z f) ?= (1 # 2))%Q with
  | Lt => f
  | Gt => f + 1
  | Eq => if Z.even f then f else f + 1
  end.

(** [round(x, 6)] on a float: the exact value of [x] is rounded to the
    nearest multiple of 10^-6, ties to even, and the float nearest to that
    decimal is returned; zeros, infinities and NaN are returned as they
    are. *)
Definition py_round6_binary64 (x : PrimFloat.float) : PrimFloat.float :=
  match FloatOps.Prim2SF x with
  | SpecFloat.S754_finite sign _ _ =>
      match nearest_even (exact_magnitude x * 1000000) with
      | Zpos k =>
          FloatOps.SF2Prim
            (SpecFloat.SFdiv FloatOps.prec FloatOps.emax
               (SpecFloat.S754_finite sign k 0)
               (SpecFloat.S754_finite false 1000000 0))
      | _ => if sign then (-0)%float else 0%float
      end
  | _ => x
  end.

(** The three values of [random.random()] one call consumes, in order. *)
Record GpsDraw64 : Type := mkGpsDraw64 {
  random_angle : PrimFloat.float;      (* for random.uniform(-30, 30) *)
  random_distance : PrimFloat.float;   (* for random.uniform(0, RADIUS * 0.1) *)
  random_accuracy : PrimFloat.float    (* for random.uniform(5, 15) *)
}.

(** [state.sim_lat], [state.sim_lon] and [state.sim_angle]. *)
Record Walk64 : Type := mkWalk64 {
  sim_lat64 : PrimFloat.float;
  sim_lon64 : PrimFloat.float;
  sim_angle64 : PrimFloat.float
}.

(** The numbers of the dictionary [get_simulated_gps] returns. *)
Record Position64 : Type := mkPosition64 {
  latitude64 : PrimFloat.float;
  longitude64 : PrimFloat.float;
  accuracy64 : PrimFloat.float
}.

Definition initial_walk64 : Walk64 :=
  mkWalk64 (fst SIMULATION_GPS_CENTER_binary64) (snd SIMULATION_GPS_CENTER_binary64) 0%float.

Definition get_simulated_gps_binary64 (lm : Libm64) (d : GpsDraw64) (w : Walk64)
  : Position64 * Walk64 :=
  let angle := (sim_angle64 w + random_uniform (-30) 30 (random_angle d))%float in
  let distance :=
    random_uniform 0 (SIMULATION_GPS_RADIUS_binary64 * one_tenth)%float (random_distance d) in
  let lat := (sim_lat64 w + distance * cos64 lm (math_radians64 angle))%float in
  let lon := (sim_lon64 w + distance * sin64 lm (math_radians64 angle))%float in
  let '(center_lat, center_lon) := SIMULATION_GPS_CENTER_binary64 in
  let max_dist := SIMULATION_GPS_RADIUS_binary64 in
  let lat := keep_within_binary64 center_lat max_dist lat in
  let lon := keep_within_binary64 center_lon max_dist lon in
  ({| latitude64 := py_round6_binary64 lat;
      longitude64 := py_round6_binary64 lon;
      accuracy64 := random_uniform 5 15 (random_accuracy d) |},
   mkWalk64 lat lon angle).

(** The value of [state.sim_angle] after each of successive calls. *)
Fixpoint headings (lm : Libm64) (draws : list GpsDraw64) (w : Walk64)
  : list PrimFloat.float :=
  match draws with
  | [] => []
  | d :: rest =>
      let w1 := snd (get_simulated_gps_binary64 lm d w) in
      sim_angle64 w1 :: headings lm rest w1
  end.

(** Successive calls: the positions returned, in order, and the walk
    state after the last call. *)
Fixpoint walk_binary64 (lm : Libm64) (draws : list GpsDraw64) (w : Walk64)
  : list Position64 * Walk64 :=
  match draws with
  | [] => ([], w)
  | d :: rest =>
      let '(p, w1) := get_simulated_gps_binary64 lm d w in
      let '(ps, w2) := walk_binary64 lm rest w1 in
      (p :: ps, w2)
  end.

(** [abs(x - center) <= SIMULATION_GPS_RADIUS], as floats compare. *)
Definition within_radius_binary64 (center x : PrimFloat.float) : bool :=
  PrimFloat.leb (PrimFloat.abs (PrimFloat.sub x center)) SIMULATION_GPS_RADIUS_binary64.

(** The same inequality between the rationals the three floats denote. *)
Definition within_radius_exact (center x : PrimFloat.float) : bool :=
  Qle_bool (Qabs (exact_value x - exact_value center))
           (exact_value SIMULATION_GPS_RADIUS_binary64).

(** Two walks from the initial state.  [libm] gives [cos] and [sin] at the
    nine headings the walks take, 0, 22.5, ..., 180 degrees, with the
    values [math.cos] and [math.sin] return there. *)
Module Walk.
#[local] Set Warnings "-inexact-float".
Fixpoint lookup (table : list (PrimFloat.float * PrimFloat.float))
         (x : PrimFloat.float) : PrimFloat.float :=
  match table with
  | [] => 0%float
  | (key, value) :: rest => if PrimFloat.eqb x key then value else lookup rest x
  end.
Definition cos_table : list (PrimFloat.float * PrimFloat.float) :=
  [(math_radians64 0, 1); (math_radians64 22.5, 0.9238795325112867);
   (math_radians64 45, 0.7071067811865476); (math_radians64 67.5, 0.38268343236508984);
   (math_radians64 90, 6.123233995736766e-17); (math_radians64 112.5, -0.3826834323650897);
   (math_radians64 135, -0.7071067811865475); (math_radians64 157.5, -0.9238795325112867);
   (math_radians64 180, -1)]%float.
Definition sin_table : list (PrimFloat.float * PrimFloat.float) :=
  [(math_radians64 0, 0); (math_radians64 22.5, 0.3826834323650898);
   (math_radians64 45, 0.7071067811865475); (math_radians64 67.5, 0.9238795325112867);
   (math_radians64 90, 1); (math_radians64 112.5, 0.9238795325112867);
   (math_radians64 135, 0.7071067811865476); (math_radians64 157.5, 0.3826834323650899);
   (math_radians64 180, 1.2246467991473532e-16)]%float.
Definition libm : Libm64 := mkLibm64 (lookup cos_table) (lookup sin_table).
(** random() = 0.875 turns the heading by 22.5 degrees, random() = 0 gives
    distance 0. *)
Definition turn : GpsDraw64 := mkGpsDraw64 0.875 0 0.5.
(** random() = 0.5 keeps the heading, random() = 0.9 gives distance
    0.001 * 0.9. *)
Definition ahead : GpsDraw64 := mkGpsDraw64 0.5 0.9 0.5.
Definition north : list GpsDraw64 := repeat ahead 12.
Definition south : list GpsDraw64 := repeat turn 8 ++ repeat ahead 12.
Definition lower_edge : PrimFloat.float := 28.6039%float.
Definition upper_edge : PrimFloat.float := 28.623900000000003%float.
(** What the two walks are found to return and to pass through. *)
Definition south_headings : list PrimFloat.float :=
  [22.5; 45; 67.5; 90; 112.5; 135; 157.5; 180]%float ++ repeat 180%float 12.
Definition south_latitudes : list PrimFloat.float :=
  repeat 28.6139%float 8
  ++ [28.613; 28.6121; 28.6112; 28.6103; 28.6094; 28.6085; 28.6076; 28.6067;
      28.6058; 28.6049; 28.604; 28.6039]%float.
Definition north_latitudes : list PrimFloat.float :=
  [28.6148; 28.6157; 28.6166; 28.6175; 28.6184; 28.6193; 28.6202; 28.6211;
   28.622; 28.6229; 28.6238; 28.6239]%float.
#[local] Set Warnings "+inexact-float".
Definition latitudes (r : list Position64 * Walk64) : list PrimFloat.float :=
  map latitude64 (fst r).
End Walk.

(** ** A join, statement by statement *)

(** [handle_connect] runs in the thread that serves the joining client,
    [monitoring_loop] in the thread made by [start_system] (line 314), and
    the routes in theirs; no lock is taken anywhere.  To speak of what the
    other threads do while a client joins, the handler is cut at its three
    statements; [Whole a] is an action of another thread run between
    them. *)
Inductive Statement : Type :=
| JoinCount (sid : Sid)                       (* line 347 *)
| JoinLocation (sid : Sid)                    (* lines 351-352 *)
| JoinStatus (sid : Sid) (now : Timestamp)    (* lines 354-357 *)
| Whole (a : Action).

Definition exec (lm : Libm) (h : Handlers) (st : Statement) : M unit :=
  match st with
  | JoinCount _ =>
      modify (fun s => set_connected_clients (connected_clients s + 1) s)
  | JoinLocation sid =>
      loc <- gets current_location ;;
      match loc with
      | Some location => tell (EmitTo sid "location_update" (PLocation location))
      | None => ret tt
      end
  | JoinStatus sid now =>
      c <- gets current_status ;;
      tell (EmitTo sid "status_update" (PStatus c now))
  | Whole a => step lm h a
  end.

Fixpoint run_statements (lm : Libm) (h : Handlers) (sts : list Statement) : M unit :=
  match sts with
  | [] => ret tt
  | st :: rest => exec lm h st ;; run_statements lm h rest
  end.

(** The sample stored by the latest iteration of the loop among the
    actions, [latest] if none ran; [s] is the state before the actions. *)
Fixpoint latest_sample (lm : Libm) (h : Handlers) (acts : list Action)
         (s : SystemState) (latest : option Location) : option Location :=
  match acts with
  | [] => latest
  | a :: rest =>
      latest_sample lm h rest (state_of (step lm h a s))
        match a with
        | Tick inp =>
            if running s
            then Some (result_of (get_simulated_gps lm (tick_gps inp) s))
            else latest
        | _ => latest
        end
  end.

(** The statuses carried by the [status_update] broadcasts of a trace, in
    order. *)
Fixpoint broadcast_statuses (t : list Effect) : list Status :=
  match t with
  | [] => []
  | Broadcast topic (PStatus c _) :: rest =>
      if String.eqb topic "status_update"
      then c :: broadcast_statuses rest
      else broadcast_statuses rest
  | _ :: rest => broadcast_statuses rest
  end.

(** * Properties *)

(** ** The monad *)

Lemma bind_state {A B} (m : M A) (k : A -> M B) s :
  state_of (bind m k s) = state_of (k (result_of (m s)) (state_of (m s))).
Proof.
  unfold bind, state_of, result_of.
  destruct (m s) as [[a s1] t1]; cbn.
  destruct (k a s1) as [[b s2] t2]; reflexivity.
Qed.

Lemma bind_trace {A B} (m : M A) (k : A -> M B) s :
  trace_of (bind m k s) =
  trace_of (m s) ++ trace_of (k (result_of (m s)) (state_of (m s))).
Proof.
  unfold bind, state_of, result_of, trace_of.
  destruct (m s) as [[a s1] t1]; cbn.
  destruct (k a s1) as [[b s2] t2]; reflexivity.
Qed.

Lemma run_app_trace lm h a1 a2 s :
  trace_of (run lm h (a1 ++ a2) s) =
  trace_of (run lm h a1 s) ++ trace_of (run lm h a2 (state_of (run lm h a1 s))).
Proof.
  revert s; induction a1 as [|a a1 IH]; intros s; [reflexivity|].
  cbn [app run]. rewrite !bind_trace, bind_state, IH, app_assoc. reflexivity.
Qed.

Lemma count_app p t1 t2 : count p (t1 ++ t2) = (count p t1 + count p t2)%nat.
Proof. unfold count. rewrite filter_app, length_app. reflexivity. Qed.

(** ** Start and stop *)

(** C8. [start_system] answers success=false exactly when the engine is
    already running; when it is not, it sets [running] and starts the
    thread.  [stop_system] always answers success=true, and stopping
    again, any number of times, succeeds and changes nothing more. *)
Theorem start_stop_replies (s : SystemState) :
  (success (result_of (start_system s)) = false <-> running s = true) /\
  success (result_of (start_system s)) = negb (running s) /\
  running (state_of (start_system s)) = true /\
  trace_of (start_system s) = (if running s then [] else [StartThread]) /\
  success (result_of (stop_system s)) = true /\
  running (state_of (stop_system s)) = false /\
  (forall n : nat,
      let s' := Nat.iter n (fun x => state_of (stop_system x)) (state_of (stop_system s)) in
      s' = state_of (stop_system s) /\ success (result_of (stop_system s')) = true).
Proof.
  split; [|split; [|split; [|split; [|split; [|split]]]]].
  - destruct s as [[] l c es n fb tg la lo an]; cbn; split; congruence.
  - destruct s as [[] l c es n fb tg la lo an]; reflexivity.
  - destruct s as [[] l c es n fb tg la lo an]; reflexivity.
  - destruct s as [[] l c es n fb tg la lo an]; reflexivity.
  - reflexivity.
  - reflexivity.
  - intros n s'; split; [|reflexivity].
    subst s'. induction n as [|k IH]; [reflexivity|].
    rewrite Nat.iter_succ, IH. reflexivity.
Qed.

(** C10. [stop_system] writes [running] and nothing else: the status, the
    location, the event log, the client count and the two connectivity
    flags are those of the state before the call (the simulated position
    too), and nothing is sent. *)
Theorem stop_system_frame (s : SystemState) :
  let s' := state_of (stop_system s) in
  current_status s' = current_status s /\
  current_location s' = current_location s /\
  events s' = events s /\
  connected_clients s' = connected_clients s /\
  firebase_connected s' = firebase_connected s /\
  telegram_enabled s' = telegram_enabled s /\
  (sim_lat s', sim_lon s', sim_angle s') = (sim_lat s, sim_lon s, sim_angle s) /\
  s' = set_running false s /\
  trace_of (stop_system s) = [].
Proof. cbn. repeat split. Qed.

(** ** Observers *)

Lemma handle_connect_trace sid now s :
  trace_of (handle_connect sid now s) = replay sid now s.
Proof.
  unfold handle_connect, replay.
  rewrite !bind_trace; cbn.
  destruct (current_location s); reflexivity.
Qed.

Lemma replay_counts sid now s :
  count (is_emit_to sid "status_update") (replay sid now s) = 1%nat /\
  count (is_emit_to sid "location_update") (replay sid now s) =
    (match current_location s with Some _ => 1 | None => 0 end)%nat.
Proof.
  unfold replay, count.
  destruct (current_location s); cbn; rewrite Nat.eqb_refl; cbn; auto.
Qed.

(** ** Frames *)

Lemma get_simulated_gps_frame lm d s :
  trace_of (get_simulated_gps lm d s) = [] /\
  core (state_of (get_simulated_gps lm d s)) = core s.
Proof. split; reflexivity. Qed.

Lemma sampling_loop_frame lm window n i s :
  let body := fun i =>
    location <- get_simulated_gps lm (window i) ;;
    tell (Broadcast "location_update" (PLocation location)) ;;
    tell (Sleep 2%Q) in
  exists locs,
    List.length locs = n /\
    trace_of (for_range n i body s) = window_effects locs /\
    core (state_of (for_range n i body s)) = core s.
Proof.
  intros body. revert i s.
  induction n as [|n IH]; intros i s.
  - exists []; repeat split.
  - destruct (IH (S i) (state_of (body i s))) as (locs & Hlen & Htr & Hcore).
    exists (result_of (get_simulated_gps lm (window i) s) :: locs).
    cbn [for_range]. rewrite bind_trace, bind_state, Htr, Hcore.
    repeat split.
    + cbn. now rewrite Hlen.
Qed.

Lemma enhanced_monitoring_frame lm window s :
  exists locs,
    List.length locs = 15%nat /\
    trace_of (enhanced_monitoring lm window s) = window_effects locs /\
    core (state_of (enhanced_monitoring lm window s)) = core s.
Proof. apply sampling_loop_frame. Qed.

Lemma events_trim_state s :
  state_of (events_trim s) = set_events (trim (events s)) s.
Proof.
  unfold events_trim, modify, state_of, trim; cbn [fst snd].
  destruct (CAPACITY <? List.length (events s))%nat; [reflexivity|].
  destruct s; reflexivity.
Qed.

(** Evaluate the monad and the record updates, leaving the sampler, the
    sampling loop and the list functions alone. *)
Tactic Notation "run_monad" :=
  cbv beta iota zeta delta
      [bind ret gets modify tell result_of state_of trace_of fst snd
       events_insert events_trim trim core
       set_running set_current_location set_current_status set_events
       set_connected_clients set_sim
       running current_location current_status events connected_clients
       firebase_connected telegram_enabled sim_lat sim_lon sim_angle].
Tactic Notation "run_monad" "in" hyp(H) :=
  cbv beta iota zeta delta
      [bind ret gets modify tell result_of state_of trace_of fst snd
       events_insert events_trim trim core
       set_running set_current_location set_current_status set_events
       set_connected_clients set_sim
       running current_location current_status events connected_clients
       firebase_connected telegram_enabled sim_lat sim_lon sim_angle] in H.

Lemma core_is s a b c d e f g :
  core s = (a, b, c, d, e, f, g) ->
  running s = a /\ current_location s = b /\ current_status s = c /\
  events s = d /\ connected_clients s = e /\ firebase_connected s = f /\
  telegram_enabled s = g.
Proof. unfold core. intros H. injection H. intuition. Qed.

(** An iteration whose detection fires: the state it leaves and the
    effects it has, in order. *)
Lemma on_detection lm h inp s :
  detected inp = true ->
  let location := result_of (get_simulated_gps lm (tick_gps inp) s) in
  let event := distress_event location (keyword_of inp) in
  core (state_of (monitoring_iteration lm h inp s)) =
    (running s, Some location, safe, trim (event :: events s),
     connected_clients s, firebase_connected s, telegram_enabled s) /\
  exists locs,
    List.length locs = 15%nat /\
    trace_of (monitoring_iteration lm h inp s) =
      [Broadcast "location_update" (PLocation location);
       VoiceCheck true; StoreEvent event]
      ++ (if telegram_handler_enabled h
          then [SendAlert location (keyword_of inp)] else [])
      ++ [Broadcast "emergency_alert" (PEvent event)]
      ++ window_effects locs
      ++ [Broadcast "status_update" (PStatus safe (tick_now inp));
          Sleep Config.GPS_UPDATE_INTERVAL].
Proof.
  intros Hd location event. unfold detected in Hd.
  destruct (get_simulated_gps_frame lm (tick_gps inp) s) as [Hg Hc].
  pose proof (enhanced_monitoring_frame lm (tick_window inp)) as HW.
  subst event location.
  unfold monitoring_iteration, simulate_voice_detection.
  rewrite Hd. fold (keyword_of inp).
  set (G := get_simulated_gps lm (tick_gps inp)) in *.
  set (W := enhanced_monitoring lm (tick_window inp)) in *.
  clearbody G W.
  run_monad. run_monad in Hg. run_monad in Hc.
  destruct (G s) as [[loc s1] t1]. subst t1.
  destruct s as [r l c es n fb tg la lo an].
  destruct s1 as [r1 l1 c1 es1 n1 fb1 tg1 la1 lo1 an1].
  injection Hc as -> -> -> -> -> -> ->.
  match goal with
  | |- context [Nat.ltb CAPACITY ?k] => destruct (Nat.ltb CAPACITY k)
  end;
    destruct (telegram_handler_enabled h); run_monad;
    match goal with
    | |- context [W ?S] =>
        destruct (HW S) as (locs & Hlen & Htw & Hcore);
        destruct (W S) as [[[] s6] tw]
    end;
    run_monad in Htw; run_monad in Hcore; subst tw;
    destruct s6 as [r6 l6 c6 es6 n6 fb6 tg6 la6 lo6 an6];
    injection Hcore as -> -> -> -> -> -> ->;
    (split; [reflexivity|]);
    exists locs; (split; [exact Hlen|]);
    cbn [app]; rewrite ?app_nil_r; reflexivity.
Qed.

(** An iteration whose detection does not fire. *)
Lemma on_quiet lm h inp s :
  detected inp = false ->
  let location := result_of (get_simulated_gps lm (tick_gps inp) s) in
  let due := (List.length (events s) mod 10 =? 0)%nat in
  core (state_of (monitoring_iteration lm h inp s)) =
    (running s, Some location, current_status s,
     (if due then safe_event location :: events s else events s),
     connected_clients s, firebase_connected s, telegram_enabled s) /\
  trace_of (monitoring_iteration lm h inp s) =
   [Broadcast "location_update" (PLocation location); VoiceCheck false]
   ++ (if due then [StoreEvent (safe_event location)] else [])
   ++ [Broadcast "status_update" (PStatus (current_status s) (tick_now inp));
       Sleep Config.GPS_UPDATE_INTERVAL].
Proof.
  intros Hd location due. unfold detected in Hd.
  destruct (get_simulated_gps_frame lm (tick_gps inp) s) as [Hg Hc].
  subst due location.
  unfold monitoring_iteration, simulate_voice_detection.
  rewrite Hd.
  set (G := get_simulated_gps lm (tick_gps inp)) in *.
  clearbody G.
  run_monad. run_monad in Hg. run_monad in Hc.
  destruct (G s) as [[loc s1] t1]. subst t1.
  destruct s as [r l c es n fb tg la lo an].
  destruct s1 as [r1 l1 c1 es1 n1 fb1 tg1 la1 lo1 an1].
  injection Hc as -> -> -> -> -> -> ->.
  destruct (List.length es mod 10 =? 0)%nat; run_monad; split; reflexivity.
Qed.

Lemma detected_cases inp : {detected inp = true} + {detected inp = false}.
Proof. destruct (detected inp); auto. Qed.

(** What an iteration leaves alone, and what it always sets. *)
Lemma monitoring_iteration_frame lm h inp s :
  let s' := state_of (monitoring_iteration lm h inp s) in
  running s' = running s /\
  connected_clients s' = connected_clients s /\
  firebase_connected s' = firebase_connected s /\
  telegram_enabled s' = telegram_enabled s /\
  current_location s' = Some (result_of (get_simulated_gps lm (tick_gps inp) s)) /\
  (current_status s = safe -> current_status s' = safe).
Proof.
  intros s'. subst s'.
  destruct (detected_cases inp) as [Hd | Hd].
  - destruct (on_detection lm h inp s Hd) as [Hcore _].
    apply core_is in Hcore. intuition.
  - destruct (on_quiet lm h inp s Hd) as [Hcore _].
    apply core_is in Hcore. intuition congruence.
Qed.

(** ** Detections *)

Lemma window_effects_counts locs :
  count is_alert (window_effects locs) = 0%nat /\
  count is_voice_check (window_effects locs) = 0%nat /\
  count is_store (window_effects locs) = 0%nat /\
  count (is_broadcast "emergency_alert") (window_effects locs) = 0%nat /\
  count (is_broadcast "location_update") (window_effects locs) = List.length locs.
Proof.
  unfold count. induction locs as [|l locs (IH1 & IH2 & IH3 & IH4 & IH5)];
    [repeat split|].
  cbn. repeat split; auto.
Qed.

Lemma trim_cons event es :
  trim (event :: es) =
  event :: (if (CAPACITY <? S (List.length es))%nat then removelast es else es).
Proof.
  unfold trim. cbn [List.length].
  destruct (CAPACITY <? S (List.length es))%nat eqn:E; [|reflexivity].
  destruct es as [|e es]; [discriminate E|reflexivity].
Qed.

Lemma trim_length es :
  (List.length es <= S CAPACITY -> List.length (trim es) <= CAPACITY)%nat.
Proof.
  unfold trim. intros H.
  destruct (CAPACITY <? List.length es)%nat eqn:E.
  - apply Nat.ltb_lt in E.
    destruct es as [|e es]; [cbn in E; lia|].
    rewrite removelast_firstn_len, length_firstn. cbn [List.length] in *. lia.
  - apply Nat.ltb_ge in E. exact E.
Qed.

(** C2, as the code has it.  On an iteration whose detection fires
    (status safe on entry): one distress entry goes to the head of the log
    (the last entry is dropped when that makes more than 50); a Telegram
    alert is sent once if the handler is enabled and not at all otherwise;
    then come the emergency broadcast, fifteen location broadcasts each
    followed by a two-second sleep, with no further detection, store or
    alert, and the status update; the status is safe again at the end. *)
Theorem detection_iteration
        (lm : Libm) (h : Handlers) (inp : TickInput) (s : SystemState) :
  detected inp = true ->
  current_status s = safe ->
  let r := monitoring_iteration lm h inp s in
  let location := result_of (get_simulated_gps lm (tick_gps inp) s) in
  let event := distress_event location (keyword_of inp) in
  ev_status event = distress /\
  events (state_of r) =
    event :: (if (CAPACITY <? S (List.length (events s)))%nat
              then removelast (events s) else events s) /\
  (exists locs,
      List.length locs = 15%nat /\
      trace_of r =
        [Broadcast "location_update" (PLocation location);
         VoiceCheck true; StoreEvent event]
        ++ (if telegram_handler_enabled h
            then [SendAlert location (keyword_of inp)] else [])
        ++ [Broadcast "emergency_alert" (PEvent event)]
        ++ window_effects locs
        ++ [Broadcast "status_update" (PStatus safe (tick_now inp));
            Sleep Config.GPS_UPDATE_INTERVAL]) /\
  count is_alert (trace_of r) = (if telegram_handler_enabled h then 1 else 0)%nat /\
  count is_voice_check (trace_of r) = 1%nat /\
  count is_store (trace_of r) = 1%nat /\
  count (is_broadcast "emergency_alert") (trace_of r) = 1%nat /\
  count (is_broadcast "location_update") (trace_of r) = 16%nat /\
  current_status (state_of r) = safe.
Proof.
  intros Hd Hsafe r location event.
  destruct (on_detection lm h inp s Hd) as [Hcore (locs & Hlen & Htr)].
  fold r location event in Hcore, Htr.
  apply core_is in Hcore. destruct Hcore as (_ & _ & Hst & Hev & _).
  destruct (window_effects_counts locs) as (W1 & W2 & W3 & W4 & W5).
  split; [reflexivity|].
  split; [rewrite Hev; apply trim_cons|].
  split; [exists locs; split; [exact Hlen | exact Htr]|].
  generalize dependent (trace_of r). intros t ->.
  rewrite !count_app, W1, W2, W3, W4, W5, Hlen.
  destruct (telegram_handler_enabled h); repeat split; assumption.
Qed.

(** C2 at a concrete iteration: the handler is enabled, the draw 0.1 is
    below the trigger probability, and one alert is sent. *)
Lemma detection_iteration_witness :
  detected Sample.loud = true /\
  current_status (Sample.located Sample.telegram_on) = safe /\
  count is_alert
        (trace_of (monitoring_iteration Sample.libm Sample.telegram_on Sample.loud
                                        (Sample.located Sample.telegram_on))) = 1%nat /\
  current_status
    (state_of (monitoring_iteration Sample.libm Sample.telegram_on Sample.loud
                                    (Sample.located Sample.telegram_on))) = safe.
Proof.
  pose proof (detection_iteration Sample.libm Sample.telegram_on Sample.loud
                (Sample.located Sample.telegram_on) eq_refl eq_refl) as H.
  cbv zeta in H.
  destruct H as (_ & _ & _ & Ha & _ & _ & _ & _ & Hs).
  split; [reflexivity|]. split; [reflexivity|]. split; [exact Ha | exact Hs].
Defined.

(** C2 as stated fails when the Telegram handler is disabled (the default
    configuration, with no bot token): the detection fires from the safe
    status and no alert is sent. *)
Lemma detection_without_alert :
  detected Sample.loud = true /\
  current_status (Sample.located Sample.telegram_off) = safe /\
  count is_alert
        (trace_of (monitoring_iteration Sample.libm Sample.telegram_off Sample.loud
                                        (Sample.located Sample.telegram_off))) = 0%nat.
Proof. vm_compute. repeat split. Qed.

(** ** The event log *)

(** An iteration whose detection fires keeps a log of at most 50 entries
    within 50, dropping the oldest entry when it was full. *)
Lemma detection_keeps_capacity lm h inp s :
  detected inp = true ->
  (List.length (events s) <= CAPACITY)%nat ->
  (List.length (events (state_of (monitoring_iteration lm h inp s))) <= CAPACITY)%nat.
Proof.
  intros Hd Hlen.
  destruct (on_detection lm h inp s Hd) as [Hcore _].
  apply core_is in Hcore. destruct Hcore as (_ & _ & _ & Hev & _).
  rewrite Hev. apply trim_length. cbn [List.length]. lia.
Qed.

(** A quiet iteration on a log whose length is a multiple of ten adds a
    safe entry and never trims. *)
Lemma quiet_iteration_grows_log lm h inp s :
  detected inp = false ->
  (List.length (events s) mod 10 = 0)%nat ->
  List.length (events (state_of (monitoring_iteration lm h inp s))) =
  S (List.length (events s)).
Proof.
  intros Hd Hmod.
  destruct (on_quiet lm h inp s Hd) as [Hcore _].
  apply core_is in Hcore. destruct Hcore as (_ & _ & _ & Hev & _).
  rewrite Hev, Hmod. reflexivity.
Qed.

(** [trigger_emergency] with a known location adds an entry and never trims. *)
Lemma trigger_emergency_grows_log now s location :
  current_location s = Some location ->
  events (state_of (trigger_emergency now s)) = manual_event location now :: events s.
Proof.
  intros Hl. unfold trigger_emergency. run_monad.
  destruct s as [r l c es n fb tg la lo an]. run_monad. run_monad in Hl.
  subst l. reflexivity.
Qed.

(** C1 fails on the code.  From the initial state, [Sample.fill_log] (a
    start and fifty iterations of the loop) leaves exactly 50 entries; the
    next quiet iteration inserts a safe entry without trimming and the log
    holds 51; fifty manual triggers after one iteration do the same. *)
Theorem event_log_exceeds_capacity :
  let s0 := initial_state Sample.telegram_off in
  let s50 := state_of (run Sample.libm Sample.telegram_off Sample.fill_log s0) in
  let s51 := state_of (step Sample.libm Sample.telegram_off (Tick Sample.quiet) s50) in
  List.length (events s50) = CAPACITY /\
  List.length (events s51) = S CAPACITY /\
  List.length
    (events (state_of (run Sample.libm Sample.telegram_off
                           (Start :: Tick Sample.quiet
                                  :: repeat (TriggerEmergency Sample.later) 50)
                           s0))) = S CAPACITY.
Proof. vm_compute. repeat split. Qed.

(** ** What each action does to the state *)

Lemma step_state lm h a s :
  state_of (step lm h a s) =
  match a with
  | Start => set_running true s
  | Stop => set_running false s
  | TriggerEmergency now =>
      match current_location s with
      | Some location => set_events (manual_event location now :: events s) s
      | None => s
      end
  | Connect _ _ => set_connected_clients (connected_clients s + 1) s
  | Disconnect _ => set_connected_clients (connected_clients s - 1) s
  | RequestLocation _ => s
  | Tick inp => if running s then state_of (monitoring_iteration lm h inp s) else s
  end.
Proof.
  destruct a as [| |now|sid now|sid|sid|inp]; unfold step.
  - unfold discard, start_system. destruct s as [[] l c es n fb tg la lo an]; reflexivity.
  - reflexivity.
  - unfold discard, trigger_emergency.
    destruct s as [r [l|] c es n fb tg la lo an]; reflexivity.
  - unfold handle_connect.
    destruct s as [r [l|] c es n fb tg la lo an]; reflexivity.
  - reflexivity.
  - unfold handle_location_request.
    destruct s as [r [l|] c es n fb tg la lo an]; reflexivity.
  - generalize (monitoring_iteration lm h inp). intros m.
    rewrite bind_state. cbn [gets result_of state_of fst snd].
    destruct (running s); reflexivity.
Qed.

Lemma step_frame lm h a s :
  let s' := state_of (step lm h a s) in
  running s' = match a with Start => true | Stop => false | _ => running s end /\
  connected_clients s' = connected_clients s + net_joins [a] /\
  (current_location s' = None <->
   current_location s = None /\
   match a with Tick _ => running s = false | _ => True end) /\
  (current_status s = safe -> current_status s' = safe).
Proof.
  intros s'. subst s'. rewrite step_state.
  destruct a as [| |now|sid now|sid|sid|inp]; cbn [net_joins].
  - cbn. intuition lia.
  - cbn. intuition lia.
  - destruct (current_location s) eqn:E; cbn; rewrite ?E; intuition (try lia; try discriminate).
  - cbn. intuition lia.
  - cbn. intuition lia.
  - intuition lia.
  - destruct (running s) eqn:R.
    + destruct (monitoring_iteration_frame lm h inp s) as (H1 & H2 & _ & _ & H5 & H6).
      rewrite H1, H2, H5. intuition (try lia; try discriminate).
    + intuition lia.
Qed.

Lemma run_cons_state lm h a acts s :
  state_of (run lm h (a :: acts) s) = state_of (run lm h acts (state_of (step lm h a s))).
Proof. cbn [run]. rewrite bind_state. reflexivity. Qed.

(** The location is unset exactly as long as no iteration has run. *)
Lemma location_unset_iff_never_sampled lm h acts s :
  current_location (state_of (run lm h acts s)) = None <->
  current_location s = None /\ ever_sampled acts (running s) = false.
Proof.
  revert s. induction acts as [|a acts IH]; intros s.
  - cbn. intuition.
  - rewrite run_cons_state, IH.
    destruct (step_frame lm h a s) as (Hr & _ & Hl & _).
    rewrite Hr, Hl.
    destruct a; cbn [ever_sampled]; try tauto.
    destruct (running s); cbn [orb]; intuition discriminate.
Qed.

(** The status is safe between any two actions. *)
Lemma status_safe_between_actions lm h acts s :
  current_status s = safe ->
  current_status (state_of (run lm h acts s)) = safe.
Proof.
  revert s. induction acts as [|a acts IH]; intros s Hs; [exact Hs|].
  rewrite run_cons_state. apply IH.
  destruct (step_frame lm h a s) as (_ & _ & _ & H). auto.
Qed.

(** ** A join *)

Lemma step_location lm h a s :
  current_location (state_of (step lm h a s)) =
  match a with
  | Tick inp =>
      if running s
      then Some (result_of (get_simulated_gps lm (tick_gps inp) s))
      else current_location s
  | _ => current_location s
  end.
Proof.
  rewrite step_state.
  destruct a as [| |now|sid now|sid|sid|inp]; try reflexivity.
  - destruct (current_location s) eqn:E; cbn; rewrite ?E; reflexivity.
  - destruct (running s); [|reflexivity].
    apply monitoring_iteration_frame.
Qed.

(** The stored location is the sample of the latest iteration. *)
Lemma stored_location_is_latest_sample lm h acts s :
  current_location (state_of (run lm h acts s)) =
  latest_sample lm h acts s (current_location s).
Proof.
  revert s. induction acts as [|a acts IH]; intros s; [reflexivity|].
  rewrite run_cons_state, IH, step_location. reflexivity.
Qed.

(** The three statements of the join, run one after the other, are
    [handle_connect]. *)
Lemma join_statements_are_handle_connect lm h sid now s :
  run_statements lm h [JoinCount sid; JoinLocation sid; JoinStatus sid now] s =
  handle_connect sid now s.
Proof.
  unfold run_statements, exec, handle_connect.
  destruct s as [r [l|] c es n fb tg la lo an]; reflexivity.
Qed.

(** Actions run whole, one after the other, are a run of the process. *)
Lemma whole_actions_are_run lm h acts s :
  run_statements lm h (map Whole acts) s = run lm h acts s.
Proof.
  revert s. induction acts as [|a acts IH]; intros s; [reflexivity|].
  cbn [map run_statements run exec]. unfold bind.
  destruct (step lm h a s) as [[[] s1] t1]. rewrite IH. reflexivity.
Qed.

(** C9, as the code has it.  [handle_connect] sends the joining client the
    stored location, once, when there is one and nothing otherwise, and
    then the stored status, once, whatever state it runs in (also in the
    middle of an iteration of the loop).  After any actions from the
    initial state the stored location is the sample the latest iteration
    of the loop took at line 206 (the samples of an escalation window are
    broadcast, not stored), and there is none exactly when no iteration
    has run. *)
Theorem join_replays_latest_sample
        (lm : Libm) (h : Handlers) (sid : Sid) (now : Timestamp)
        (during : SystemState) (acts : list Action) :
  let sent := trace_of (handle_connect sid now during) in
  let s := state_of (run lm h acts (initial_state h)) in
  let latest := latest_sample lm h acts (initial_state h) None in
  sent =
    match current_location during with
    | Some location => [EmitTo sid "location_update" (PLocation location)]
    | None => []
    end ++ [EmitTo sid "status_update" (PStatus (current_status during) now)] /\
  count (is_emit_to sid "status_update") sent = 1%nat /\
  count (is_emit_to sid "location_update") sent =
    (match current_location during with Some _ => 1 | None => 0 end)%nat /\
  current_location s = latest /\
  (latest = None <-> ever_sampled acts false = false) /\
  trace_of (handle_connect sid now s) =
    match latest with
    | Some location => [EmitTo sid "location_update" (PLocation location)]
    | None => []
    end ++ [EmitTo sid "status_update" (PStatus (current_status s) now)] /\
  count (is_emit_to sid "location_update") (trace_of (handle_connect sid now s)) =
    (if ever_sampled acts false then 1 else 0)%nat.
Proof.
  intros sent s latest. subst sent.
  assert (Hl : current_location s = latest).
  { subst s latest. apply stored_location_is_latest_sample. }
  assert (Hn : latest = None <-> ever_sampled acts false = false).
  { rewrite <- Hl. subst s.
    rewrite location_unset_iff_never_sampled. cbn. tauto. }
  rewrite !handle_connect_trace.
  destruct (replay_counts sid now during) as [Hs Hc].
  destruct (replay_counts sid now s) as [_ Hc'].
  split; [reflexivity|]. split; [exact Hs|]. split; [exact Hc|].
  split; [exact Hl|]. split; [exact Hn|].
  split; [unfold replay; rewrite Hl; reflexivity|].
  rewrite Hc', Hl.
  destruct latest as [l|].
  - destruct (ever_sampled acts false); [reflexivity|].
    destruct Hn as [_ Hn]. discriminate (Hn eq_refl).
  - rewrite (proj1 Hn eq_refl). reflexivity.
Qed.

(** C9 as stated fails on the order of delivery.  A client joins while the
    loop runs: its handler has counted it (line 347) when the loop thread
    runs an iteration, and only then does the handler go on to lines
    351-357.  The broadcasts of that iteration, a live [location_update]
    and a live [status_update], go out to the connected clients before
    the two messages the handler sends to the newcomer. *)
Lemma join_overtaken_by_live_push :
  let lm := Sample.libm in
  let h := Sample.telegram_on in
  let sid := 1%nat in
  let joined := run_statements lm h [Whole Start; JoinCount sid] (initial_state h) in
  let sample := result_of (get_simulated_gps lm (tick_gps Sample.quiet) (state_of joined)) in
  running (state_of joined) = true /\
  connected_clients (state_of joined) = 1 /\
  trace_of (run_statements lm h
              [Whole (Tick Sample.quiet); JoinLocation sid; JoinStatus sid Sample.later]
              (state_of joined)) =
    [Broadcast "location_update" (PLocation sample);
     VoiceCheck false;
     StoreEvent (safe_event sample);
     Broadcast "status_update" (PStatus safe (tick_now Sample.quiet));
     Sleep Config.GPS_UPDATE_INTERVAL;
     EmitTo sid "location_update" (PLocation sample);
     EmitTo sid "status_update" (PStatus safe Sample.later)].
Proof. vm_compute. repeat split. Qed.

(** ** Manual trigger *)

(** C4, as the code has it.  After any actions from the initial state,
    [trigger_emergency] answers success=false exactly when no iteration
    of the loop has sampled a location; then it says "No location
    available" and changes nothing.  Otherwise it answers success=true,
    puts one distress entry with keyword MANUAL_TRIGGER at the head of the
    log, hands it to the event store and broadcasts it; it sends no
    Telegram alert and leaves the status as it was. *)
Theorem trigger_emergency_replies
        (lm : Libm) (h : Handlers) (acts : list Action) (now : Timestamp) :
  let s := state_of (run lm h acts (initial_state h)) in
  let r := trigger_emergency now s in
  (success (result_of r) = false <-> ever_sampled acts false = false) /\
  match current_location s with
  | None =>
      ever_sampled acts false = false /\
      result_of r = mkReply false "No location available" /\
      state_of r = s /\
      trace_of r = []
  | Some location =>
      let event := manual_event location now in
      ever_sampled acts false = true /\
      result_of r = mkReply true "Emergency triggered" /\
      ev_status event = distress /\
      ev_keyword event = Some "MANUAL_TRIGGER"%string /\
      state_of r = set_events (event :: events s) s /\
      trace_of r = [StoreEvent event; Broadcast "emergency_alert" (PEvent event)] /\
      count is_alert (trace_of r) = 0%nat /\
      current_status (state_of r) = current_status s
  end.
Proof.
  intros s r.
  pose proof (location_unset_iff_never_sampled lm h acts (initial_state h)) as Hloc.
  fold s in Hloc. cbn [initial_state current_location running] in Hloc.
  subst r. generalize dependent s. intros s Hloc.
  unfold trigger_emergency.
  destruct s as [rn [l|] c es n fb tg la lo an];
    cbn [current_location] in *.
  - assert (Hs : ever_sampled acts false = true).
    { destruct (ever_sampled acts false); [reflexivity|].
      assert (Some l = None) by (apply Hloc; auto). discriminate. }
    rewrite Hs. split; [cbn; intuition discriminate|].
    repeat split.
  - assert (Hs : ever_sampled acts false = false) by (apply Hloc; reflexivity).
    rewrite Hs. split; [cbn; intuition|].
    repeat split.
Qed.

(** C4 as stated fails: with the Telegram handler enabled, the manual
    trigger sends no alert where a detection from the same state sends
    one, and it leaves no escalation behind. *)
Lemma manual_trigger_sends_no_alert :
  current_location (Sample.located Sample.telegram_on) = Some Sample.here /\
  success (result_of (trigger_emergency Sample.later
                                        (Sample.located Sample.telegram_on))) = true /\
  count is_alert
        (trace_of (trigger_emergency Sample.later
                                     (Sample.located Sample.telegram_on))) = 0%nat /\
  count is_alert
        (trace_of (monitoring_iteration Sample.libm Sample.telegram_on Sample.loud
                                        (Sample.located Sample.telegram_on))) = 1%nat /\
  count (is_broadcast "location_update")
        (trace_of (trigger_emergency Sample.later
                                     (Sample.located Sample.telegram_on))) = 0%nat.
Proof. vm_compute. repeat split. Qed.

(** ** The events query *)

Lemma py_slice_to_nonneg {A} (lst : list A) (stop : Z) :
  0 <= stop -> py_slice_to lst stop = firstn (Z.to_nat stop) lst.
Proof.
  intros H. unfold py_slice_to.
  destruct (stop <? 0) eqn:E; [apply Z.ltb_lt in E; lia|].
  destruct (Z.le_ge_cases stop (Z.of_nat (List.length lst))) as [Hle | Hge].
  - rewrite Z.min_l by exact Hle. reflexivity.
  - rewrite Z.min_r by lia. rewrite Nat2Z.id.
    rewrite !firstn_all2; [reflexivity | lia | lia].
Qed.

Lemma py_slice_to_negative {A} (lst : list A) (stop : Z) :
  stop < 0 ->
  py_slice_to lst stop = firstn (List.length lst - Z.to_nat (- stop)) lst.
Proof.
  intros H. unfold py_slice_to.
  destruct (stop <? 0) eqn:E; [|apply Z.ltb_ge in E; lia].
  f_equal. lia.
Qed.

(** C5, as the code has it.  Without a limit the query behaves as with
    limit 20.  For a limit that is not negative it returns the first
    [limit] entries of the log (all of them when there are fewer), newest
    first, so at most [limit] entries.  A negative limit is not clamped:
    [-k] returns all entries but the [k] oldest. *)
Theorem get_events_slices (limit : Z) (s : SystemState) :
  get_events None s = get_events (Some 20) s /\
  (0 <= limit ->
   get_events (Some limit) s = firstn (Z.to_nat limit) (events s) /\
   Z.of_nat (List.length (get_events (Some limit) s)) <= limit /\
   exists older, events s = get_events (Some limit) s ++ older) /\
  (limit < 0 ->
   get_events (Some limit) s =
   firstn (List.length (events s) - Z.to_nat (- limit)) (events s)).
Proof.
  split; [reflexivity|]. split.
  - intros H. unfold get_events. rewrite py_slice_to_nonneg by exact H.
    split; [reflexivity|]. split.
    + rewrite length_firstn. lia.
    + exists (skipn (Z.to_nat limit) (events s)).
      symmetry. apply firstn_skipn.
  - intros H. unfold get_events. apply py_slice_to_negative. exact H.
Qed.

(** C5 at limits 2 and -1 on a log of three entries. *)
Lemma get_events_slices_witness :
  0 <= 2 /\
  get_events (Some 2) (Sample.three_events Sample.telegram_off)
    = [Sample.e "c"; Sample.e "b"] /\
  -1 < 0 /\
  get_events (Some (-1)) (Sample.three_events Sample.telegram_off)
    = [Sample.e "c"; Sample.e "b"].
Proof.
  destruct (get_events_slices 2 (Sample.three_events Sample.telegram_off))
    as (_ & Hpos & _).
  destruct (get_events_slices (-1) (Sample.three_events Sample.telegram_off))
    as (_ & _ & Hneg).
  split; [lia|]. split; [exact (proj1 (Hpos ltac:(lia)))|].
  split; [lia|]. exact (Hneg ltac:(lia)).
Defined.

(** C5 as stated fails: limit -1 on a log of three entries returns two
    entries, more than the limit and more than limit 0 returns. *)
Lemma negative_limit_not_clamped :
  List.length (get_events (Some (-1)) (Sample.three_events Sample.telegram_off)) = 2%nat /\
  get_events (Some 0) (Sample.three_events Sample.telegram_off) = [] /\
  Z.of_nat (List.length (get_events (Some (-1)) (Sample.three_events Sample.telegram_off)))
    > -1.
Proof. repeat split. Qed.

(** ** The client counter *)

Lemma leaves_follow_joins_firstn acts present n :
  leaves_follow_joins acts present = true ->
  leaves_follow_joins (firstn n acts) present = true.
Proof.
  revert acts present. induction n as [|n IH]; intros acts present H; [reflexivity|].
  destruct acts as [|a acts]; [reflexivity|].
  cbn [firstn]. destruct a; cbn [leaves_follow_joins] in *; auto.
  apply andb_true_iff in H. destruct H as [H1 H2].
  rewrite H1. cbn. auto.
Qed.

Lemma leaves_follow_joins_nonneg acts present :
  0 <= present ->
  leaves_follow_joins acts present = true ->
  0 <= present + net_joins acts.
Proof.
  revert present. induction acts as [|a acts IH]; intros present Hp H.
  - cbn. lia.
  - destruct a; cbn [leaves_follow_joins net_joins] in *; auto.
    + specialize (IH (present + 1) ltac:(lia) H). lia.
    + apply andb_true_iff in H. destruct H as [H1 H2].
      apply Z.leb_le in H1.
      specialize (IH (present - 1) ltac:(lia) H2). lia.
Qed.

Lemma run_connected_clients lm h acts s :
  connected_clients (state_of (run lm h acts s)) = connected_clients s + net_joins acts.
Proof.
  revert s. induction acts as [|a acts IH]; intros s.
  - cbn. lia.
  - rewrite run_cons_state, IH.
    destruct (step_frame lm h a s) as (_ & Hc & _).
    rewrite Hc. destruct a; cbn [net_joins]; lia.
Qed.

(** C6, as the code has it.  A join adds one to the counter and a leave
    subtracts one, with no floor and without failing; after any actions
    the counter is its old value plus joins minus leaves.  It stays
    non-negative in every state passed through when it starts
    non-negative and no leave comes while it is zero. *)
Theorem connected_clients_counts
        (lm : Libm) (h : Handlers) (acts : list Action) (s : SystemState) :
  (forall sid now,
      connected_clients (state_of (handle_connect sid now s)) = connected_clients s + 1) /\
  (forall sid,
      connected_clients (state_of (handle_disconnect sid s)) = connected_clients s - 1) /\
  connected_clients (state_of (run lm h acts s)) = connected_clients s + net_joins acts /\
  (0 <= connected_clients s ->
   leaves_follow_joins acts (connected_clients s) = true ->
   forall n, 0 <= connected_clients (state_of (run lm h (firstn n acts) s))).
Proof.
  split; [|split; [|split]].
  - intros sid now.
    change (handle_connect sid now s) with (step lm h (Connect sid now) s).
    rewrite step_state. reflexivity.
  - intros sid. reflexivity.
  - apply run_connected_clients.
  - intros H0 Hf n. rewrite run_connected_clients.
    apply leaves_follow_joins_nonneg; [exact H0|].
    apply leaves_follow_joins_firstn. exact Hf.
Qed.

(** C6 on two joins and two leaves, in a state reached after the first
    three of them. *)
Lemma connected_clients_counts_witness :
  0 <= connected_clients (initial_state Sample.telegram_off) /\
  leaves_follow_joins
    Sample.joins_and_leaves
    (connected_clients (initial_state Sample.telegram_off)) = true /\
  0 <= connected_clients
         (state_of (run Sample.libm Sample.telegram_off
                        (firstn 3 Sample.joins_and_leaves)
                        (initial_state Sample.telegram_off))).
Proof.
  split; [cbn; lia|]. split; [reflexivity|].
  apply (connected_clients_counts Sample.libm Sample.telegram_off
           Sample.joins_and_leaves
           (initial_state Sample.telegram_off)).
  - cbn; lia.
  - reflexivity.
Defined.

(** C6 as stated fails: there is no floor, and a leave when the counter
    is zero makes it -1. *)
Lemma disconnect_goes_negative :
  connected_clients (initial_state Sample.telegram_off) = 0 /\
  connected_clients
    (state_of (handle_disconnect 7%nat (initial_state Sample.telegram_off))) = -1 /\
  connected_clients
    (state_of (run Sample.libm Sample.telegram_off [Disconnect 7%nat]
                   (initial_state Sample.telegram_off))) < 0.
Proof. repeat split. Qed.

(** ** The Telegram fan-out *)

Lemma send_alert_loop_spec bot_send ids success :
  send_alert_loop bot_send ids success =
  (success || existsb bot_send (filter nonempty ids),
   map (fun id => mkDelivery id (bot_send id)) (filter nonempty ids)).
Proof.
  revert success. induction ids as [|id ids IH]; intros success.
  - cbn. now rewrite orb_false_r.
  - cbn [send_alert_loop filter].
    destruct (nonempty id); [|apply IH].
    rewrite IH. cbn [existsb map].
    destruct (bot_send id); destruct success; reflexivity.
Qed.

Lemma filter_delivered bot_send sinks :
  List.length (filter delivered (map (fun id => mkDelivery id (bot_send id)) sinks)) =
  List.length (filter bot_send sinks).
Proof.
  induction sinks as [|id sinks IH]; [reflexivity|].
  cbn. destruct (bot_send id); cbn; auto.
Qed.

(** C3, as the code has it.  [send_alert] returns a boolean, not a report.
    When the handler is enabled it attempts one delivery to every
    non-empty chat id, in order, whatever the earlier attempts did, and
    returns whether at least one succeeded; the attempts made are those
    the spec's report would count.  When the handler is disabled, or no
    chat id is configured, it attempts nothing and returns false. *)
Theorem send_alert_attempts_every_sink
        (h : Handlers) (bot_send : string -> bool)
        (location : Location) (keyword : option string) :
  let sinks := filter nonempty (TELEGRAM_CHAT_IDS h) in
  let r := send_alert h bot_send location keyword in
  r = (if telegram_handler_enabled h
       then (existsb bot_send sinks,
             map (fun id => mkDelivery id (bot_send id)) sinks)
       else (false, [])) /\
  List.length (snd r) = attempted (notify_report h bot_send) /\
  List.length (filter delivered (snd r)) = succeeded (notify_report h bot_send) /\
  fst r = (0 <? succeeded (notify_report h bot_send))%nat /\
  (attempted (notify_report h bot_send) = 0%nat -> r = (false, [])).
Proof.
  intros sinks r. subst r. unfold send_alert, notify_report. fold sinks.
  destruct (telegram_handler_enabled h); cbn [negb];
    [|repeat split; reflexivity].
  rewrite send_alert_loop_spec. fold sinks. cbn [orb fst snd attempted succeeded].
  split; [reflexivity|]. split; [apply length_map|].
  split; [apply filter_delivered|]. split.
  - induction sinks as [|id l IH]; [reflexivity|].
    cbn. destruct (bot_send id); [reflexivity | exact IH].
  - intros H. destruct sinks; [reflexivity | discriminate H].
Qed.

(** C3 on three sinks of which the second fails: three attempts, two
    delivered, and the flag [true]; and on an empty configuration. *)
Lemma send_alert_attempts_every_sink_witness :
  send_alert Sample.telegram_on Sample.one_fails Sample.here None =
    (true, [mkDelivery "111" true; mkDelivery "222" false; mkDelivery "333" true]) /\
  attempted (notify_report Sample.telegram_off Sample.none_fails) = 0%nat /\
  send_alert Sample.telegram_off Sample.none_fails Sample.here None = (false, []).
Proof.
  split; [|split].
  - exact (proj1 (send_alert_attempts_every_sink
                    Sample.telegram_on Sample.one_fails Sample.here None)).
  - reflexivity.
  - exact (proj2 (proj2 (proj2 (proj2 (send_alert_attempts_every_sink
             Sample.telegram_off Sample.none_fails Sample.here None)))) eq_refl).
Defined.

(** C3 as stated fails: with three sinks of which one fails, the report
    of the spec is (3, 2), but [send_alert] returns the flag [true], the
    same value it returns when all three succeed and the report is
    (3, 3); the returned value does not carry the counts. *)
Lemma send_alert_returns_flag :
  notify_report Sample.telegram_on Sample.one_fails = mkReport 3 2 /\
  notify_report Sample.telegram_on Sample.none_fails = mkReport 3 3 /\
  fst (send_alert Sample.telegram_on Sample.one_fails Sample.here None) = true /\
  fst (send_alert Sample.telegram_on Sample.none_fails Sample.here None) = true.
Proof. repeat split. Qed.

(** ** The simulated walk on binary64 *)

(** On binary64 floats the lower edge the code computes, [28.6139 - 0.01],
    is the float 28.6039, and it fails the code's own test
    [abs(lat - center_lat) > max_dist] by about 1.5e-15: a position pulled
    back to that edge is outside the box as floats compare. *)
Lemma lower_edge_outside_in_binary64 :
  let lat := keep_within_binary64 Sample.center_lat_binary64 Sample.radius_binary64
                                  Sample.south_of_box_binary64 in
  PrimFloat.eqb lat Sample.lower_edge_binary64 = true /\
  PrimFloat.ltb Sample.radius_binary64
                (PrimFloat.abs (PrimFloat.sub lat Sample.center_lat_binary64)) = true.
Proof. vm_compute. split; reflexivity. Qed.

(** C7, refuted on the floats the code computes with.  The lines under
    the comment "Keep within bounds" pull a coordinate that left the box
    back to [center + max_dist] or [center - max_dist], and neither float
    is within [max_dist] of the center.

    South: eight calls with random() = 0.875 and random() = 0 turn the
    heading to 180 degrees without moving; twelve calls with random() = 0.5
    and random() = 0.9 then move south by 0.001 * 0.9 each.  The first
    nineteen latitudes returned are in the box; the twentieth is the float
    28.6039, the value left in [state.sim_lat], for which
    [abs(latitude - 28.6139) <= 0.01] is false, both as floats compare and
    between the rationals the floats denote.

    North: twelve calls with random() = 0.5 and random() = 0.9 from the
    initial state.  The latitude left in [state.sim_lat] is
    28.623900000000003, outside the box in the same two senses; here
    [round(x, 6)] returns 28.6239, which is inside, so every latitude
    returned on this walk passes. *)
Theorem simulated_walk_leaves_box :
  let center_lat := fst SIMULATION_GPS_CENTER_binary64 in
  let south := walk_binary64 Walk.libm Walk.south initial_walk64 in
  let north := walk_binary64 Walk.libm Walk.north initial_walk64 in
  headings Walk.libm Walk.south initial_walk64 = Walk.south_headings /\
  Walk.latitudes south = Walk.south_latitudes /\
  map (within_radius_binary64 center_lat) (Walk.latitudes south)
    = repeat true 19 ++ [false] /\
  map (within_radius_exact center_lat) (Walk.latitudes south)
    = repeat true 19 ++ [false] /\
  sim_lat64 (snd south) = Walk.lower_edge /\
  within_radius_binary64 center_lat (sim_lat64 (snd south)) = false /\
  Walk.latitudes north = Walk.north_latitudes /\
  map (within_radius_binary64 center_lat) (Walk.latitudes north) = repeat true 12 /\
  sim_lat64 (snd north) = Walk.upper_edge /\
  within_radius_binary64 center_lat (sim_lat64 (snd north)) = false /\
  within_radius_exact center_lat (sim_lat64 (snd north)) = false.
Proof. vm_compute. repeat split. Qed.

(** * Further properties of the code *)

(** ** Effects of one action *)

Lemma step_trace lm h a s :
  trace_of (step lm h a s) =
  match a with
  | Start => if running s then [] else [StartThread]
  | Stop => []
  | TriggerEmergency now =>
      match current_location s with
      | Some location =>
          [StoreEvent (manual_event location now);
           Broadcast "emergency_alert" (PEvent (manual_event location now))]
      | None => []
      end
  | Connect sid now => replay sid now s
  | Disconnect _ => []
  | RequestLocation sid =>
      match current_location s with
      | Some location => [EmitTo sid "location_update" (PLocation location)]
      | None => []
      end
  | Tick inp => if running s then trace_of (monitoring_iteration lm h inp s) else []
  end.
Proof.
  destruct a as [| |now|sid now|sid|sid|inp]; unfold step.
  - unfold discard, start_system. destruct s as [[] l c es n fb tg la lo an]; reflexivity.
  - reflexivity.
  - unfold discard, trigger_emergency.
    destruct s as [r [l|] c es n fb tg la lo an]; reflexivity.
  - apply handle_connect_trace.
  - reflexivity.
  - unfold handle_location_request.
    destruct s as [r [l|] c es n fb tg la lo an]; reflexivity.
  - generalize (monitoring_iteration lm h inp). intros m.
    rewrite bind_trace. cbn [gets result_of state_of trace_of fst snd app].
    destruct (running s); reflexivity.
Qed.

Lemma run_cons_trace lm h a acts s :
  trace_of (run lm h (a :: acts) s) =
  trace_of (step lm h a s) ++ trace_of (run lm h acts (state_of (step lm h a s))).
Proof. cbn [run]. rewrite bind_trace. reflexivity. Qed.

Lemma stored_events_app t1 t2 :
  stored_events (t1 ++ t2) = stored_events t1 ++ stored_events t2.
Proof.
  induction t1 as [|e t1 IH]; [reflexivity|].
  destruct e; cbn [app stored_events]; rewrite IH; reflexivity.
Qed.

Lemma window_effects_quiet locs :
  stored_events (window_effects locs) = [] /\
  existsb broadcasts_distress (window_effects locs) = false /\
  existsb is_start_thread (window_effects locs) = false.
Proof.
  induction locs as [|l locs (IH1 & IH2 & IH3)]; [repeat split|].
  cbn. auto.
Qed.

(** What one iteration does to the log, and what it sends out. *)
Lemma iteration_log lm h inp s :
  let r := monitoring_iteration lm h inp s in
  let location := result_of (get_simulated_gps lm (tick_gps inp) s) in
  let due := (List.length (events s) mod 10 =? 0)%nat in
  events (state_of r) =
    (if detected inp then trim (distress_event location (keyword_of inp) :: events s)
     else if due then safe_event location :: events s
     else events s) /\
  stored_events (trace_of r) =
    (if detected inp then [distress_event location (keyword_of inp)]
     else if due then [safe_event location]
     else []) /\
  existsb is_start_thread (trace_of r) = false /\
  (current_status s = safe -> existsb broadcasts_distress (trace_of r) = false).
Proof.
  intros r location due. subst r.
  destruct (detected_cases inp) as [Hd | Hd]; rewrite Hd.
  - destruct (on_detection lm h inp s Hd) as [Hcore (locs & _ & Htr)].
    fold location in Hcore, Htr.
    apply core_is in Hcore. destruct Hcore as (_ & _ & _ & Hev & _).
    destruct (window_effects_quiet locs) as (W1 & W2 & W3).
    generalize dependent (monitoring_iteration lm h inp s). intros r Hev ->.
    split; [exact Hev|].
    rewrite !stored_events_app, !existsb_app, W1, W2, W3.
    destruct (telegram_handler_enabled h); repeat split.
  - destruct (on_quiet lm h inp s Hd) as [Hcore Htr].
    fold location due in Hcore, Htr.
    apply core_is in Hcore. destruct Hcore as (_ & _ & _ & Hev & _).
    generalize dependent (monitoring_iteration lm h inp s). intros r Hev ->.
    split; [exact Hev|].
    destruct due; cbn; repeat split; intros ->; reflexivity.
Qed.

(** ** Voice detection *)

Lemma keyword_of_in_vocabulary inp :
  exists kw,
    keyword_of inp = Some kw /\
    existsb (String.eqb kw) Config.DISTRESS_KEYWORDS = true.
Proof.
  unfold keyword_of.
  assert (H : (choice_index (tick_voice inp) mod
               List.length Config.DISTRESS_KEYWORDS < 5)%nat)
    by (apply Nat.mod_upper_bound; discriminate).
  destruct (choice_index (tick_voice inp) mod List.length Config.DISTRESS_KEYWORDS)%nat
    as [|[|[|[|[|k]]]]]; try lia; eexists; split; reflexivity.
Qed.

Lemma py_lt_true x y : py_lt x y = true <-> (x < y)%Q.
Proof.
  unfold py_lt. rewrite negb_true_iff. split.
  - intros H. apply Qnot_le_lt. intros Hle.
    apply Qle_bool_iff in Hle. congruence.
  - intros H. destruct (Qle_bool y x) eqn:E; [|reflexivity].
    apply Qle_bool_iff in E. exfalso. apply (Qlt_not_le _ _ H). exact E.
Qed.

(** X2.  Whatever the two random draws, [simulate_voice_detection]
    reports either a detection carrying one of the five configured
    keywords and confidence 0.85, or no detection with no keyword and
    confidence 0; it reports a detection exactly when the uniform draw is
    below 0.15, and it changes nothing of the state. *)
Theorem voice_detection_outcomes (v : VoiceDraw) (s : SystemState) :
  let r := simulate_voice_detection v s in
  state_of r = s /\
  (fst (fst (result_of r)) = true <-> (u_random v < 15 # 100)%Q) /\
  match result_of r with
  | (true, Some kw, confidence) =>
      In kw Config.DISTRESS_KEYWORDS /\ confidence = (85 # 100)%Q
  | (false, None, confidence) => confidence = 0%Q
  | _ => False
  end.
Proof.
  intros r. subst r. unfold simulate_voice_detection.
  destruct (keyword_of_in_vocabulary
              (mkTickInput Sample.still v (fun _ => Sample.still) EmptyString))
    as (kw & Hk & Hin).
  unfold keyword_of in Hk. cbn [tick_voice] in Hk.
  pose proof (py_lt_true (u_random v) Config.SIMULATION_VOICE_TRIGGER_PROB) as Hlt.
  change Config.SIMULATION_VOICE_TRIGGER_PROB with (15 # 100)%Q in Hlt at 2.
  destruct (py_lt (u_random v) Config.SIMULATION_VOICE_TRIGGER_PROB) eqn:E.
  - rewrite Hk. cbn. split; [reflexivity|]. split; [tauto|]. split; [|reflexivity].
    apply existsb_exists in Hin. destruct Hin as (x & Hx & Heq).
    apply String.eqb_eq in Heq. subst x. exact Hx.
  - cbn. split; [reflexivity|]. split; [|reflexivity].
    split; [discriminate|]. intros H. apply Hlt in H. discriminate.
Qed.

(** ** Invariants of the event log *)

Lemma Forall_removelast {A} (P : A -> Prop) (l : list A) :
  Forall P l -> Forall P (removelast l).
Proof.
  induction l as [|a l IH]; intros H; [constructor|].
  inversion H; subst. destruct l as [|b l]; [constructor|].
  cbn [removelast]. constructor; auto.
Qed.

Lemma Forall_trim (P : Event -> Prop) es : Forall P es -> Forall P (trim es).
Proof.
  unfold trim. destruct (_ <? _)%nat; [apply Forall_removelast | auto].
Qed.

Lemma step_events lm h a s :
  events (state_of (step lm h a s)) =
  match a with
  | TriggerEmergency now =>
      match current_location s with
      | Some location => manual_event location now :: events s
      | None => events s
      end
  | Tick inp =>
      if running s then events (state_of (monitoring_iteration lm h inp s))
      else events s
  | _ => events s
  end.
Proof.
  rewrite step_state.
  destruct a; try reflexivity.
  - destruct (current_location s); reflexivity.
  - destruct (running s); reflexivity.
Qed.

(** X3.  In every state reached from the initial state, every entry of
    the event log is either a safe entry without a keyword or a distress
    entry whose keyword is one of the five configured keywords or
    MANUAL_TRIGGER. *)
Theorem event_log_entries_well_formed
        (lm : Libm) (h : Handlers) (acts : list Action) :
  forallb event_well_formed
          (events (state_of (run lm h acts (initial_state h)))) = true.
Proof.
  apply forallb_forall. apply Forall_forall.
  assert (G : forall s, Forall (fun e => event_well_formed e = true) (events s) ->
                        Forall (fun e => event_well_formed e = true)
                               (events (state_of (run lm h acts s)))).
  { induction acts as [|a acts IH]; intros s Hs; [exact Hs|].
    rewrite run_cons_state. apply IH. rewrite step_events.
    destruct a as [| |now|sid now|sid|sid|inp]; auto.
    - destruct (current_location s);
        [constructor; [reflexivity | exact Hs] | exact Hs].
    - destruct (running s); auto.
      destruct (iteration_log lm h inp s) as (Hev & _). rewrite Hev.
      destruct (keyword_of_in_vocabulary inp) as (kw & Hk & Hin).
      destruct (detected inp).
      + apply Forall_trim. constructor; [|exact Hs].
        unfold event_well_formed. cbn [distress_event ev_status ev_keyword].
        rewrite Hk, Hin. reflexivity.
      + destruct (_ =? _)%nat;
          [constructor; [reflexivity | exact Hs] | exact Hs]. }
  apply G. constructor.
Qed.

Lemma trim_length_cases es :
  List.length (trim es) =
  (if (CAPACITY <? List.length es)%nat then pred (List.length es) else List.length es).
Proof.
  unfold trim. destruct (_ <? _)%nat; [|reflexivity].
  rewrite removelast_firstn_len, length_firstn. lia.
Qed.

Lemma step_keeps_log_within_51 lm h a s :
  is_manual_trigger a = false ->
  (List.length (events s) <= S CAPACITY)%nat ->
  (List.length (events (state_of (step lm h a s))) <= S CAPACITY)%nat.
Proof.
  intros Ha Hs. rewrite step_events.
  destruct a as [| |now|sid now|sid|sid|inp]; try exact Hs; [discriminate Ha|].
  destruct (running s); [|exact Hs].
  destruct (iteration_log lm h inp s) as (Hev & _). rewrite Hev.
  destruct (detected inp).
  - rewrite trim_length_cases. cbn [List.length].
    destruct (_ <? _)%nat eqn:E; [cbn; lia|].
    apply Nat.ltb_ge in E. unfold CAPACITY in *. lia.
  - destruct (_ =? _)%nat eqn:E; [|exact Hs].
    apply Nat.eqb_eq in E. cbn [List.length].
    assert (List.length (events s) <> 51)%nat
      by (intros H51; rewrite H51 in E; discriminate E).
    unfold CAPACITY in *. lia.
Qed.

(** X4.  As long as the manual trigger is not used, the event log never
    holds more than 51 entries, in any state reached from the initial
    state: the audit insertion at length 50 takes it to 51, where the
    distress branch keeps it and no further audit entry is due. *)
Theorem engine_log_at_most_51
        (lm : Libm) (h : Handlers) (acts : list Action) :
  existsb is_manual_trigger acts = false ->
  (List.length (events (state_of (run lm h acts (initial_state h)))) <= 51)%nat.
Proof.
  intros Hno.
  assert (G : forall s, (List.length (events s) <= S CAPACITY)%nat ->
                        (List.length (events (state_of (run lm h acts s))) <= S CAPACITY)%nat).
  { induction acts as [|a acts IH]; intros s Hs; [exact Hs|].
    cbn [existsb] in Hno. apply orb_false_iff in Hno. destruct Hno as [Ha Hrest].
    rewrite run_cons_state. apply IH; [exact Hrest|].
    apply step_keeps_log_within_51; assumption. }
  apply G. cbn. lia.
Qed.

(** X4 on a run of the loop alone that reaches the bound: 53 iterations
    leave exactly 51 entries. *)
Lemma engine_log_at_most_51_witness :
  existsb is_manual_trigger Example.engine_only = false /\
  (List.length (events (state_of (run Sample.libm Sample.telegram_off Example.engine_only
                                      (initial_state Sample.telegram_off))))
   <= 51)%nat /\
  List.length (events (state_of (run Sample.libm Sample.telegram_off Example.engine_only
                                     (initial_state Sample.telegram_off)))) = 51%nat.
Proof.
  split; [reflexivity|]. split.
  - apply (engine_log_at_most_51 Sample.libm Sample.telegram_off Example.engine_only).
    reflexivity.
  - vm_compute. reflexivity.
Defined.

Lemma step_stored lm h a s :
  exists new,
    stored_events (trace_of (step lm h a s)) = new /\
    (new = [] /\ events (state_of (step lm h a s)) = events s \/
     exists e, new = [e] /\
               (events (state_of (step lm h a s)) = e :: events s \/
                events (state_of (step lm h a s)) = trim (e :: events s))).
Proof.
  eexists. split; [reflexivity|].
  rewrite step_events, step_trace.
  destruct a as [| |now|sid now|sid|sid|inp].
  - left. destruct (running s); split; reflexivity.
  - left. split; reflexivity.
  - destruct (current_location s).
    + right. eexists. split; [reflexivity|]. left. reflexivity.
    + left. split; reflexivity.
  - left. split; [|reflexivity]. unfold replay.
    destruct (current_location s); reflexivity.
  - left. split; reflexivity.
  - left. destruct (current_location s); split; reflexivity.
  - destruct (running s); [|left; split; reflexivity].
    destruct (iteration_log lm h inp s) as (Hev & Hst & _).
    rewrite Hev, Hst.
    destruct (detected inp).
    + right. eexists. split; [reflexivity|]. right. reflexivity.
    + destruct (_ =? _)%nat.
      * right. eexists. split; [reflexivity|]. left. reflexivity.
      * left. split; reflexivity.
Qed.

Lemma trim_is_prefix (es : list Event) : exists dropped, es = trim es ++ dropped.
Proof.
  unfold trim. destruct (_ <? _)%nat eqn:E.
  - destruct es as [|e es]; [discriminate E|].
    exists [last (e :: es) e]. apply app_removelast_last. discriminate.
  - exists []. now rewrite app_nil_r.
Qed.

Lemma log_mirrors_store_from lm h acts s before :
  (exists older, rev (stored_events before) = events s ++ older) ->
  exists older,
    rev (stored_events (before ++ trace_of (run lm h acts s))) =
    events (state_of (run lm h acts s)) ++ older.
Proof.
  revert s before. induction acts as [|a acts IH]; intros s before Hinv.
  - cbn. rewrite app_nil_r. exact Hinv.
  - rewrite run_cons_trace, run_cons_state, app_assoc. apply IH.
    destruct Hinv as (older & Hold).
    rewrite stored_events_app, rev_app_distr, Hold.
    destruct (step_stored lm h a s) as (new & -> & [[-> ->] | (e & -> & [-> | ->])]).
    + exists older. reflexivity.
    + exists older. reflexivity.
    + destruct (trim_is_prefix (e :: events s)) as (dropped & Hd).
      exists (dropped ++ older). cbn [rev app].
      rewrite app_assoc, <- Hd. reflexivity.
Qed.

(** X5.  In every state reached from the initial state, the event log is
    a front part of the events handed to [store_event] so far, read from
    the newest to the oldest: every log entry was passed to the event
    store, in the same order, and only oldest entries are missing from
    the log. *)
Theorem log_mirrors_store (lm : Libm) (h : Handlers) (acts : list Action) :
  let r := run lm h acts (initial_state h) in
  exists older,
    rev (stored_events (trace_of r)) = events (state_of r) ++ older.
Proof.
  intros r. subst r.
  apply (log_mirrors_store_from lm h acts (initial_state h) []).
  exists []. reflexivity.
Qed.

(** X6.  Whenever an action hands an event to [store_event], that event
    is what the events query with limit 1 returns right after the action:
    an inserted event is read back unchanged as the newest entry. *)
Theorem stored_event_is_read_back
        (lm : Libm) (h : Handlers) (a : Action) (s : SystemState) (e : Event) :
  In (StoreEvent e) (trace_of (step lm h a s)) ->
  get_events (Some 1) (state_of (step lm h a s)) = [e].
Proof.
  intros Hin.
  assert (He : In e (stored_events (trace_of (step lm h a s)))).
  { induction (trace_of (step lm h a s)) as [|x t IH]; [destruct Hin|].
    destruct Hin as [-> | Hin]; [left; reflexivity|].
    destruct x; cbn [stored_events]; auto. right. auto. }
  destruct (step_stored lm h a s) as (new & Hnew & [[-> _] | (e' & -> & Hev)]);
    rewrite Hnew in He; [destruct He|].
  destruct He as [<- | []].
  unfold get_events. rewrite py_slice_to_nonneg by lia.
  destruct Hev as [-> | ->]; [reflexivity|].
  rewrite trim_cons. reflexivity.
Qed.

(** X6 at a manual trigger. *)
Lemma stored_event_is_read_back_witness :
  In (StoreEvent (manual_event Sample.here Sample.later))
     (trace_of (step Sample.libm Sample.telegram_off (TriggerEmergency Sample.later)
                     (Sample.three_events Sample.telegram_off))) /\
  get_events (Some 1)
             (state_of (step Sample.libm Sample.telegram_off (TriggerEmergency Sample.later)
                             (Sample.three_events Sample.telegram_off)))
  = [manual_event Sample.here Sample.later].
Proof.
  assert (H : In (StoreEvent (manual_event Sample.here Sample.later))
     (trace_of (step Sample.libm Sample.telegram_off (TriggerEmergency Sample.later)
                     (Sample.three_events Sample.telegram_off))))
    by (left; reflexivity).
  split; [exact H|].
  exact (stored_event_is_read_back _ _ _ _ _ H).
Defined.

(** ** What the loop broadcasts *)

Lemma broadcast_statuses_app t1 t2 :
  broadcast_statuses (t1 ++ t2) = broadcast_statuses t1 ++ broadcast_statuses t2.
Proof.
  induction t1 as [|e t1 IH]; [reflexivity|].
  destruct e as [topic [l|ev|c now]|sid topic p|b|ev|l k|q|];
    cbn [app broadcast_statuses]; try exact IH.
  destruct (String.eqb topic "status_update"); [cbn [app]; rewrite IH|]; auto.
Qed.

Lemma broadcast_statuses_window locs :
  broadcast_statuses (window_effects locs) = [].
Proof. induction locs as [|l locs IH]; [reflexivity|exact IH]. Qed.

(** X7.  An iteration of the loop broadcasts one [status_update], and it
    carries the status the iteration ends with: safe when the detection
    fired, whatever the status was before, since the status is set back to
    safe (line 253) before the update is published (line 269); the status
    the iteration began with otherwise. *)
Theorem iteration_status_update
        (lm : Libm) (h : Handlers) (inp : TickInput) (s : SystemState) :
  let r := monitoring_iteration lm h inp s in
  let announced := if detected inp then safe else current_status s in
  broadcast_statuses (trace_of r) = [announced] /\
  count (is_broadcast "status_update") (trace_of r) = 1%nat /\
  current_status (state_of r) = announced.
Proof.
  intros r announced. subst r announced.
  destruct (detected_cases inp) as [Hd | Hd]; rewrite Hd.
  - destruct (on_detection lm h inp s Hd) as [Hcore (locs & _ & Htr)].
    apply core_is in Hcore. destruct Hcore as (_ & _ & Hst & _).
    split; [|split; [|exact Hst]]; rewrite Htr.
    + rewrite !broadcast_statuses_app, broadcast_statuses_window.
      destruct (telegram_handler_enabled h); reflexivity.
    + rewrite !count_app.
      assert (W : count (is_broadcast "status_update") (window_effects locs) = 0%nat).
      { unfold count. clear. induction locs as [|l locs IH]; [reflexivity|exact IH]. }
      rewrite W.
      destruct (telegram_handler_enabled h); reflexivity.
  - destruct (on_quiet lm h inp s Hd) as [Hcore Htr].
    apply core_is in Hcore. destruct Hcore as (_ & _ & Hst & _).
    split; [|split; [|exact Hst]]; rewrite Htr;
      destruct (List.length (events s) mod 10 =? 0)%nat; reflexivity.
Qed.

(** ** Threads *)

Lemma step_threads lm h a s :
  count is_start_thread (trace_of (step lm h a s)) =
  match a with
  | Start => if running s then 0%nat else 1%nat
  | _ => 0%nat
  end.
Proof.
  rewrite step_trace. unfold count.
  destruct a as [| |now|sid now|sid|sid|inp].
  - destruct (running s); reflexivity.
  - reflexivity.
  - destruct (current_location s); reflexivity.
  - unfold replay. destruct (current_location s); reflexivity.
  - reflexivity.
  - destruct (current_location s); reflexivity.
  - destruct (running s); [|reflexivity].
    destruct (iteration_log lm h inp s) as (_ & _ & H & _).
    induction (trace_of (monitoring_iteration lm h inp s)) as [|e t IH]; [reflexivity|].
    cbn [existsb] in H. apply orb_false_iff in H. destruct H as [He Ht].
    cbn [filter]. rewrite He. auto.
Qed.

Lemma threads_started_from lm h acts s :
  (count is_start_thread (trace_of (run lm h acts s)) <=
   (if running s then 0 else 1) + List.length (filter is_stop acts))%nat.
Proof.
  revert s. induction acts as [|a acts IH]; intros s.
  - cbn. lia.
  - rewrite run_cons_trace, count_app, step_threads.
    specialize (IH (state_of (step lm h a s))).
    destruct (step_frame lm h a s) as (Hr & _). rewrite Hr in IH.
    destruct a; cbn [filter is_stop List.length] in *;
      destruct (running s); lia.
Qed.

(** X8.  In any run from the initial state the number of monitoring
    threads started is at most one more than the number of stop requests:
    [start_system] starts a thread only when the engine is not running,
    and only [stop_system] makes it not running again. *)
Theorem threads_started_at_most_stops_plus_one
        (lm : Libm) (h : Handlers) (acts : list Action) :
  (count is_start_thread (trace_of (run lm h acts (initial_state h))) <=
   1 + List.length (filter is_stop acts))%nat.
Proof. apply (threads_started_from lm h acts (initial_state h)). Qed.

(** ** The stored location *)

(** X9.  After an iteration of the loop the stored location is the first
    sample of that iteration, the one its first broadcast carries, also
    when a detection made the iteration take fifteen more samples: those
    are broadcast but not stored.  A location request made then is
    answered with that stored sample, once, and changes nothing. *)
Theorem location_request_returns_first_sample
        (lm : Libm) (h : Handlers) (inp : TickInput) (s : SystemState) (sid : Sid) :
  let r := monitoring_iteration lm h inp s in
  let sample := result_of (get_simulated_gps lm (tick_gps inp) s) in
  hd_error (trace_of r) = Some (Broadcast "location_update" (PLocation sample)) /\
  current_location (state_of r) = Some sample /\
  count (is_broadcast "location_update") (trace_of r) =
    (if detected inp then 16 else 1)%nat /\
  trace_of (handle_location_request sid (state_of r)) =
    [EmitTo sid "location_update" (PLocation sample)] /\
  state_of (handle_location_request sid (state_of r)) = state_of r.
Proof.
  intros r sample.
  destruct (monitoring_iteration_frame lm h inp s) as (_ & _ & _ & _ & Hloc & _).
  fold r sample in Hloc.
  assert (Htr : hd_error (trace_of r) =
                Some (Broadcast "location_update" (PLocation sample)) /\
                count (is_broadcast "location_update") (trace_of r) =
                (if detected inp then 16 else 1)%nat).
  { subst r. destruct (detected_cases inp) as [Hd | Hd]; rewrite Hd.
    - destruct (on_detection lm h inp s Hd) as [_ (locs & Hlen & Htr)].
      fold sample in Htr. rewrite Htr. split; [reflexivity|].
      destruct (window_effects_counts locs) as (_ & _ & _ & _ & W).
      rewrite !count_app, W, Hlen.
      destruct (telegram_handler_enabled h); reflexivity.
    - destruct (on_quiet lm h inp s Hd) as [_ Htr].
      fold sample in Htr. rewrite Htr. split; [reflexivity|].
      destruct (_ =? _)%nat; reflexivity. }
  destruct Htr as [Hhd Hcount].
  split; [exact Hhd|]. split; [exact Hloc|]. split; [exact Hcount|].
  generalize dependent (state_of r). intros s' Hloc.
  change (handle_location_request sid s')
    with (step lm h (RequestLocation sid) s').
  rewrite step_trace, step_state, Hloc. split; reflexivity.
Qed.

(** ** Configuration from the environment *)

Lemma split_commas_not_nil value : split_commas value <> [].
Proof.
  destruct value as [|c rest]; cbn [split_commas]; [discriminate|].
  destruct (Ascii.eqb c ","); [discriminate|].
  destruct (split_commas rest); discriminate.
Qed.

Lemma concat_cons_cons sep (x y : string) l :
  String.concat sep (x :: y :: l) = (x ++ sep ++ String.concat sep (y :: l))%string.
Proof. reflexivity. Qed.

Lemma split_commas_join value :
  String.concat "," (split_commas value) = value.
Proof.
  induction value as [|c rest IH]; [reflexivity|].
  cbn [split_commas].
  pose proof (split_commas_not_nil rest) as Hn.
  remember (split_commas rest) as l eqn:S.
  destruct l as [|p more]; [congruence|].
  destruct (Ascii.eqb c ",") eqn:E.
  - apply Ascii.eqb_eq in E. subst c.
    rewrite concat_cons_cons, IH. reflexivity.
  - rewrite <- IH. destruct more as [|q more]; reflexivity.
Qed.

Lemma split_commas_pieces value :
  List.length (split_commas value) = S (commas value) /\
  Forall (fun piece => commas piece = 0%nat) (split_commas value).
Proof.
  induction value as [|c rest [IHl IHf]].
  - split; [reflexivity|]. repeat constructor.
  - cbn [split_commas commas].
    destruct (Ascii.eqb c ",") eqn:E.
    + split; [cbn; now rewrite IHl|]. constructor; [reflexivity | exact IHf].
    + destruct (split_commas rest) as [|p more] eqn:S;
        [exfalso; exact (split_commas_not_nil rest S)|].
      split; [exact IHl|].
      inversion IHf; subst. constructor; [|assumption].
      cbn [commas]. rewrite E. assumption.
Qed.

(** X11.  The chat ids are the pieces of [TELEGRAM_CHAT_IDS] between its
    commas: one more piece than there are commas, none containing a
    comma, and joined by commas they give the value back.  With the
    variable unset or empty, or with no bot token, [send_alert] attempts
    no delivery and returns False, whatever the handler could deliver. *)
Theorem chat_ids_from_environment
        (firebase available bot_constructs : bool) (token chat_ids : option string)
        (bot_send : string -> bool) (location : Location) (keyword : option string) :
  let h := handlers_from_env firebase available bot_constructs token chat_ids in
  String.concat "," (TELEGRAM_CHAT_IDS h) = getenv_or_empty chat_ids /\
  List.length (TELEGRAM_CHAT_IDS h) = S (commas (getenv_or_empty chat_ids)) /\
  Forall (fun piece => commas piece = 0%nat) (TELEGRAM_CHAT_IDS h) /\
  (getenv_or_empty chat_ids = EmptyString \/ getenv_or_empty token = EmptyString ->
   send_alert h bot_send location keyword = (false, [])).
Proof.
  intros h. subst h. cbn [TELEGRAM_CHAT_IDS handlers_from_env].
  destruct (split_commas_pieces (getenv_or_empty chat_ids)) as [Hl Hf].
  split; [apply split_commas_join|]. split; [exact Hl|]. split; [exact Hf|].
  intros [H | H]; unfold send_alert, handlers_from_env, telegram_handler_init;
    cbn [telegram_handler_enabled TELEGRAM_CHAT_IDS]; rewrite H.
  - destruct (negb _); reflexivity.
  - cbn [nonempty]. rewrite andb_false_r. reflexivity.
Qed.

(** X11 with both variables unset. *)
Lemma chat_ids_from_environment_witness :
  getenv_or_empty None = EmptyString /\
  send_alert (handlers_from_env false true true None None)
             Sample.none_fails Sample.here None = (false, []).
Proof.
  split; [reflexivity|].
  apply (chat_ids_from_environment false true true None None
                                   Sample.none_fails Sample.here None).
  left. reflexivity.
Defined.

(** ** The event store *)

Lemma pushed_events_app c1 c2 :
  pushed_events (c1 ++ c2) = pushed_events c1 ++ pushed_events c2.
Proof.
  induction c1 as [|w c1 IH]; [reflexivity|].
  destruct w; cbn [app pushed_events]; rewrite IH; reflexivity.
Qed.

Lemma store_event_calls h db_returns e :
  snd (store_event h db_returns e) =
  (if firebase_handler_connected h
   then PushEvent e ::
        (if db_returns (PushEvent e)
         then [SetStatus (ev_latitude e) (ev_longitude e) (ev_status e) (ev_timestamp e)]
         else [])
   else []).
Proof.
  unfold store_event.
  destruct (firebase_handler_connected h); [|reflexivity]. cbn [negb].
  destruct (db_returns (PushEvent e)); [|reflexivity].
  destruct (db_returns (SetStatus _ _ _ _)); reflexivity.
Qed.

(** X12.  [store_event] returns True exactly when the handler is
    connected and both database calls return.  Over the events a trace
    hands to it, whatever calls fail: a disconnected handler makes no
    database call; a connected one pushes every event once, in order, a
    failure for one event not affecting the next, and writes the status
    record once for each event whose push returned. *)
Theorem event_store_calls
        (h : Handlers) (db_returns : DbWrite -> bool) (e : Event) (t : list Effect) :
  fst (store_event h db_returns e) =
    firebase_handler_connected h
    && db_returns (PushEvent e)
    && db_returns (SetStatus (ev_latitude e) (ev_longitude e)
                             (ev_status e) (ev_timestamp e)) /\
  pushed_events (database_calls h db_returns t) =
    (if firebase_handler_connected h then stored_events t else []) /\
  List.length (filter is_set_status (database_calls h db_returns t)) =
    (if firebase_handler_connected h
     then List.length (filter (fun e => db_returns (PushEvent e)) (stored_events t))
     else 0%nat) /\
  (firebase_handler_connected h = false -> database_calls h db_returns t = []).
Proof.
  split; [|split; [|split]].
  - unfold store_event.
    destruct (firebase_handler_connected h); [|reflexivity]. cbn [negb andb].
    destruct (db_returns (PushEvent e)); [|reflexivity].
    destruct (db_returns (SetStatus _ _ _ _)); reflexivity.
  - induction t as [|x t IH]; [destruct (firebase_handler_connected h); reflexivity|].
    destruct x; cbn [database_calls stored_events]; try exact IH.
    rewrite pushed_events_app, IH, store_event_calls.
    destruct (firebase_handler_connected h); [|reflexivity].
    destruct (db_returns (PushEvent e0)); reflexivity.
  - induction t as [|x t IH]; [destruct (firebase_handler_connected h); reflexivity|].
    destruct x; cbn [database_calls stored_events]; try exact IH.
    rewrite filter_app, length_app, IH, store_event_calls.
    destruct (firebase_handler_connected h); [|reflexivity].
    cbn [filter]. destruct (db_returns (PushEvent e0)); reflexivity.
  - intros Hc. induction t as [|x t IH]; [reflexivity|].
    destruct x; cbn [database_calls]; try exact IH.
    rewrite IH, store_event_calls, Hc. reflexivity.
Qed.

(** ** The status route *)

Lemma step_flags lm h a s :
  firebase_connected (state_of (step lm h a s)) = firebase_connected s /\
  telegram_enabled (state_of (step lm h a s)) = telegram_enabled s.
Proof.
  rewrite step_state.
  destruct a as [| |now|sid now|sid|sid|inp]; try (split; reflexivity).
  - destruct (current_location s); split; reflexivity.
  - destruct (running s); [|split; reflexivity].
    destruct (monitoring_iteration_frame lm h inp s) as (_ & _ & H3 & H4 & _).
    split; assumption.
Qed.

Lemma run_flags lm h acts s :
  firebase_connected (state_of (run lm h acts s)) = firebase_connected s /\
  telegram_enabled (state_of (run lm h acts s)) = telegram_enabled s.
Proof.
  revert s. induction acts as [|a acts IH]; intros s; [split; reflexivity|].
  rewrite run_cons_state.
  destruct (IH (state_of (step lm h a s))) as [H1 H2].
  destruct (step_flags lm h a s) as [F1 F2].
  split; congruence.
Qed.

Lemma run_running lm h acts s :
  running (state_of (run lm h acts s)) = running_after acts (running s).
Proof.
  revert s. induction acts as [|a acts IH]; intros s; [reflexivity|].
  rewrite run_cons_state, IH.
  destruct (step_frame lm h a s) as (Hr & _). rewrite Hr.
  destruct a; reflexivity.
Qed.

(** X13.  After any actions from the initial state, [get_status] reports
    the two connectivity flags of the handlers as they were at start-up,
    the number of joins minus leaves as connected clients, running as the
    last start or stop left it, a location exactly when an iteration of
    the loop has run, and as total the number of entries the events query
    returns for that limit. *)
Theorem get_status_after_run
        (lm : Libm) (h : Handlers) (acts : list Action) :
  let s := state_of (run lm h acts (initial_state h)) in
  let rep := get_status s in
  rep_firebase_connected rep = firebase_handler_connected h /\
  rep_telegram_enabled rep = telegram_handler_enabled h /\
  rep_connected_clients rep = net_joins acts /\
  rep_running rep = running_after acts false /\
  (rep_location rep = None <-> ever_sampled acts false = false) /\
  get_events (Some (Z.of_nat (rep_total_events rep))) s = events s.
Proof.
  intros s rep. subst rep. unfold get_status.
  cbn [rep_firebase_connected rep_telegram_enabled rep_connected_clients
       rep_running rep_location rep_total_events].
  destruct (run_flags lm h acts (initial_state h)) as [F1 F2].
  pose proof (run_connected_clients lm h acts (initial_state h)) as Hc.
  pose proof (run_running lm h acts (initial_state h)) as Hr.
  pose proof (location_unset_iff_never_sampled lm h acts (initial_state h)) as Hl.
  fold s in F1, F2, Hc, Hr, Hl.
  cbn [initial_state firebase_connected telegram_enabled connected_clients
       running current_location] in *.
  split; [exact F1|]. split; [exact F2|]. split; [rewrite Hc; lia|].
  split; [exact Hr|]. split; [rewrite Hl; tauto|].
  unfold get_events. rewrite py_slice_to_nonneg by lia.
  rewrite Nat2Z.id. apply firstn_all.
Qed.

(** ** An iteration without detection *)

(** X14.  An iteration whose detection does not fire broadcasts the
    sample, records a safe entry without keyword, and hands it to the
    event store, exactly when the length of the log is a multiple of ten,
    never trims the log, sends no Telegram alert and no emergency
    broadcast, leaves the status as it was and broadcasts it, then sleeps
    for the update interval. *)
Theorem quiet_iteration
        (lm : Libm) (h : Handlers) (inp : TickInput) (s : SystemState) :
  detected inp = false ->
  let r := monitoring_iteration lm h inp s in
  let sample := result_of (get_simulated_gps lm (tick_gps inp) s) in
  let due := (List.length (events s) mod 10 =? 0)%nat in
  events (state_of r) = (if due then safe_event sample :: events s else events s) /\
  ev_keyword (safe_event sample) = None /\
  current_status (state_of r) = current_status s /\
  trace_of r =
    [Broadcast "location_update" (PLocation sample); VoiceCheck false]
    ++ (if due then [StoreEvent (safe_event sample)] else [])
    ++ [Broadcast "status_update" (PStatus (current_status s) (tick_now inp));
        Sleep Config.GPS_UPDATE_INTERVAL] /\
  count is_alert (trace_of r) = 0%nat /\
  count (is_broadcast "emergency_alert") (trace_of r) = 0%nat.
Proof.
  intros Hd r sample due.
  destruct (on_quiet lm h inp s Hd) as [Hcore Htr].
  fold r sample due in Hcore, Htr.
  apply core_is in Hcore. destruct Hcore as (_ & _ & Hst & Hev & _).
  split; [exact Hev|]. split; [reflexivity|]. split; [exact Hst|].
  split; [exact Htr|].
  rewrite Htr. destruct due; split; reflexivity.
Qed.

(** X14 on the first iteration after a start: the log is empty, so a safe
    entry is recorded. *)
Lemma quiet_iteration_witness :
  detected Sample.quiet = false /\
  List.length
    (events (state_of (monitoring_iteration Sample.libm Sample.telegram_on Sample.quiet
                                            (Sample.located Sample.telegram_on)))) = 1%nat.
Proof.
  split; [reflexivity|].
  rewrite (proj1 (quiet_iteration Sample.libm Sample.telegram_on Sample.quiet
                                  (Sample.located Sample.telegram_on) eq_refl)).
  reflexivity.
Defined.

(** ** Requests and the engine *)

(** X15.  No request and no Socket.IO event touches what the loop owns:
    the status, the stored location, the simulated position and heading
    and the two connectivity flags are after it what they were before,
    and it runs no detection, sends no Telegram alert and broadcasts no
    location or status. *)
Theorem requests_leave_engine_state
        (lm : Libm) (h : Handlers) (a : Action) (s : SystemState) :
  is_tick a = false ->
  let s' := state_of (step lm h a s) in
  let t := trace_of (step lm h a s) in
  current_status s' = current_status s /\
  current_location s' = current_location s /\
  (sim_lat s', sim_lon s', sim_angle s') = (sim_lat s, sim_lon s, sim_angle s) /\
  firebase_connected s' = firebase_connected s /\
  telegram_enabled s' = telegram_enabled s /\
  count is_voice_check t = 0%nat /\
  count is_alert t = 0%nat /\
  count (is_broadcast "location_update") t = 0%nat /\
  count (is_broadcast "status_update") t = 0%nat.
Proof.
  intros Ha s' t. subst s' t. rewrite step_state, step_trace.
  destruct a as [| |now|sid now|sid|sid|inp]; [| | | | | |discriminate Ha].
  - destruct (running s); repeat split.
  - repeat split.
  - destruct (current_location s) eqn:E;
      cbn [current_location set_events]; rewrite ?E; repeat split.
  - unfold replay.
    destruct (current_location s) eqn:E;
      cbn [current_location set_connected_clients]; rewrite ?E; repeat split.
  - repeat split.
  - destruct (current_location s) eqn:E; rewrite ?E; repeat split.
Qed.

(** X15 at a manual trigger. *)
Lemma requests_leave_engine_state_witness :
  is_tick (TriggerEmergency Sample.later) = false /\
  current_status (state_of (step Sample.libm Sample.telegram_on
                                 (TriggerEmergency Sample.later)
                                 (Sample.located Sample.telegram_on))) = safe.
Proof.
  split; [reflexivity|].
  exact (proj1 (requests_leave_engine_state
                  Sample.libm Sample.telegram_on (TriggerEmergency Sample.later)
                  (Sample.located Sample.telegram_on) eq_refl)).
Defined.

(** ** Growth of the log under manual triggers *)

(** X17.  Once a location is stored, every manual trigger adds one entry
    to the event log and none is ever removed by it: after [n] manual
    triggers in a row the log is [n] entries longer, whatever its length
    was, so the log grows without bound. *)
Theorem manual_triggers_grow_log
        (lm : Libm) (h : Handlers) (nows : list Timestamp)
        (s : SystemState) (location : Location) :
  current_location s = Some location ->
  let s' := state_of (run lm h (map TriggerEmergency nows) s) in
  List.length (events s') = (List.length (events s) + List.length nows)%nat /\
  exists newer, events s' = newer ++ events s.
Proof.
  intros Hl s'. subst s'. revert s Hl.
  induction nows as [|now nows IH]; intros s Hl.
  - cbn. split; [lia | exists []; reflexivity].
  - cbn [map]. rewrite run_cons_state.
    assert (Hl' : current_location (state_of (step lm h (TriggerEmergency now) s))
                  = Some location).
    { rewrite step_state, Hl. exact Hl. }
    destruct (IH _ Hl') as [Hlen (newer & Hnew)].
    rewrite Hlen, Hnew, step_events, Hl. cbn [List.length]. split; [lia|].
    exists (newer ++ [manual_event location now]).
    rewrite <- app_assoc. reflexivity.
Qed.

(** X17 at a hundred triggers on a log of three entries. *)
Lemma manual_triggers_grow_log_witness :
  current_location (Sample.three_events Sample.telegram_off) = Some Sample.here /\
  List.length
    (events (state_of (run Sample.libm Sample.telegram_off
                           (map TriggerEmergency (repeat Sample.later 100))
                           (Sample.three_events Sample.telegram_off)))) = 103%nat.
Proof.
  split; [reflexivity|].
  rewrite (proj1 (manual_triggers_grow_log
                    Sample.libm Sample.telegram_off (repeat Sample.later 100)
                    (Sample.three_events Sample.telegram_off) Sample.here eq_refl)).
  reflexivity.
Defined.
